(** * The acquisition pipeline of [downloader.py]

    A shallow embedding of the Spotify-to-YouTube flow of [downloader.py]
    ([sanitize_filename], [process_spotify_link] and
    [download_youtube_track_for_spotify]) together with the properties the
    specification states about it.

    Python strings are sequences of Unicode code points; they are embedded as
    lists of code points so that [str.strip] sees the whitespace Python sees.
    The outside world (the Spotify client, the [yt-dlp] processes, the
    filesystem calls that may fail) is a record of oracles that answer from
    the history of calls made so far. Console output is not modelled. Paths
    are joined as [posixpath.join] joins them. *)

From Stdlib Require Import String Ascii.
From Stdlib Require Import List NArith ZArith Lia Bool.
From Stdlib Require DecimalString.
From Stdlib Require QArith.
Import ListNotations.

Set Implicit Arguments.

(* ================================================================= *)
(** * Part I: definitions *)
(* ================================================================= *)

(** ** Python strings *)

Definition char := N.
Definition pystr := list char.

Definition ch (a : ascii) : char := N_of_ascii a.

(** A literal of the source, as a Python string. *)
Definition py (s : string) : pystr := map N_of_ascii (list_ascii_of_string s).

Definition DQUOTE : char := 34%N.
Definition NEWLINE : char := 10%N.

(** [Py_UNICODE_ISSPACE]: the code points [str.strip()] removes. *)
Definition isspace (c : char) : bool :=
  ((9 <=? c) && (c <=? 13) || (28 <=? c) && (c <=? 32)
   || (c =? 133) || (c =? 160) || (c =? 5760)
   || (8192 <=? c) && (c <=? 8202)
   || (c =? 8232) || (c =? 8233) || (c =? 8239) || (c =? 8287)
   || (c =? 12288))%N.

Fixpoint dropwhile (p : char -> bool) (s : pystr) : pystr :=
  match s with
  | [] => []
  | c :: s' => if p c then dropwhile p s' else s
  end.

Definition lstrip (s : pystr) : pystr := dropwhile isspace s.
Definition rstrip (s : pystr) : pystr := rev (dropwhile isspace (rev s)).

(** [s.strip()] *)
Definition strip (s : pystr) : pystr := rstrip (lstrip s).

(** Truthiness of a string: [if s:] *)
Definition truthy (s : pystr) : bool :=
  match s with [] => false | _ :: _ => true end.

(** [s.replace(old, new)] for a one-character [old]. *)
Definition replace (old : char) (new : pystr) (s : pystr) : pystr :=
  flat_map (fun c => if N.eqb c old then new else [c]) s.

(** [s.split(sep)] for a one-character [sep]; the result is never empty. *)
Fixpoint split (sep : char) (s : pystr) : list pystr :=
  match s with
  | [] => [[]]
  | c :: s' =>
      if N.eqb c sep then [] :: split sep s'
      else match split sep s' with
           | [] => [[c]]
           | l :: ls => (c :: l) :: ls
           end
  end.

(** [sep.join(l)] *)
Fixpoint join (sep : pystr) (l : list pystr) : pystr :=
  match l with
  | [] => []
  | x :: rest =>
      match rest with
      | [] => x
      | _ :: _ => x ++ sep ++ join sep rest
      end
  end.

Fixpoint startswith (p s : pystr) : bool :=
  match p, s with
  | [], _ => true
  | _ :: _, [] => false
  | a :: p', b :: s' => N.eqb a b && startswith p' s'
  end.

(** [sub in s] *)
Fixpoint contains (sub s : pystr) : bool :=
  startswith sub s ||
  match s with
  | [] => false
  | _ :: s' => contains sub s'
  end.

Definition endswith_char (c : char) (s : pystr) : bool :=
  match rev s with
  | [] => false
  | x :: _ => N.eqb x c
  end.

(** [str(n)] for an integer. *)
Definition str_of_int (n : Z) : pystr :=
  py (DecimalString.NilZero.string_of_int (Z.to_int n)).

(** [s.zfill(width)]: zeros go after a leading sign. *)
Definition zfill (width : nat) (s : pystr) : pystr :=
  if Nat.leb width (length s) then s
  else
    let pad := repeat (ch "0") (width - length s) in
    match s with
    | c :: s' =>
        if N.eqb c (ch "+") || N.eqb c (ch "-") then c :: pad ++ s'
        else pad ++ s
    | [] => pad
    end.

(** ** [sanitize_filename] *)

Definition sanitize_filename (name : pystr) : pystr :=
  let name := replace (ch "/") (py "-") name in
  let name := replace (ch "\") (py "-") name in
  let name := replace (ch ":") (py " -") name in
  let name := replace (ch "*") (py "_") name in
  let name := replace (ch "?") (py "") name in
  let name := replace DQUOTE (py "'") name in
  let name := replace (ch "<") (py "_") name in
  let name := replace (ch ">") (py "_") name in
  let name := replace (ch "|") (py "_") name in
  strip (firstn 150 name).

(** The characters the specification bans from a sanitized name. *)
Definition forbidden : list char :=
  [ch "/"; ch "\"; ch ":"; ch "*"; ch "?"; DQUOTE; ch "<"; ch ">"; ch "|"].

Definition no_forbidden (s : pystr) : Prop :=
  forall c, In c forbidden -> ~ In c s.

(** No whitespace at either end. *)
Definition stripped (s : pystr) : Prop :=
  (forall c s', s = c :: s' -> isspace c = false) /\
  (forall c s', s = s' ++ [c] -> isspace c = false).

(** ** Paths *)

(** One step of [posixpath.join]: an absolute component restarts the path. *)
Definition path_join2 (path b : pystr) : pystr :=
  if startswith (py "/") b then b
  else if negb (truthy path) || endswith_char (ch "/") path then path ++ b
  else path ++ py "/" ++ b.

(** [os.path.join(a, *p)] *)
Definition path_join (a : pystr) (p : list pystr) : pystr :=
  fold_left path_join2 p a.

Fixpoint pystr_eqb (a b : pystr) : bool :=
  match a, b with
  | [], [] => true
  | x :: a', y :: b' => N.eqb x y && pystr_eqb a' b'
  | _, _ => false
  end.

(** ** The outside world *)

(** The exceptions the flow can meet. [FileNotFoundError] is a subclass of
    [OSError], and [IOError] is another name of [OSError]; all of them are
    subclasses of [Exception]. *)
Inductive exn :=
| OSError
| FileNotFoundError
| SpotifyException
| TypeError
| ValueError
| OtherException.

Definition is_OSError (e : exn) : bool :=
  match e with
  | OSError | FileNotFoundError => true
  | _ => false
  end.

(** A call either returns or raises. *)
Inductive res (A : Type) :=
| Ret (a : A)
| Raise (e : exn).
Arguments Ret {A} a.
Arguments Raise {A} e.

(** The files and directories the flow can observe. [os.makedirs] records
    the directory it was asked for; its parents are not tracked. *)
Record filesys := {
  fs_dirs : list pystr;
  fs_files : list (pystr * pystr)
}.

Definition empty_fs : filesys := {| fs_dirs := []; fs_files := [] |}.

(** [os.path.exists(p)] *)
Definition path_exists (f : filesys) (p : pystr) : bool :=
  existsb (pystr_eqb p) (fs_dirs f) ||
  existsb (fun e => pystr_eqb p (fst e)) (fs_files f).

Definition file_content (f : filesys) (p : pystr) : option pystr :=
  option_map snd (find (fun e => pystr_eqb p (fst e)) (fs_files f)).

Definition add_dir (p : pystr) (f : filesys) : filesys :=
  {| fs_dirs := p :: fs_dirs f; fs_files := fs_files f |}.

(** The file at [p] is created or truncated, then holds [content]. *)
Definition put_file (p content : pystr) (f : filesys) : filesys :=
  {| fs_dirs := fs_dirs f;
     fs_files := (p, content) ::
                 filter (fun e => negb (pystr_eqb p (fst e))) (fs_files f) |}.

(** The fields of a Spotify track object that the flow reads. An absent key
    is [None]; ['album'] can be absent, null, or an object that may carry a
    name. *)
Record artist := { artist_name : option pystr }.

Inductive album_field :=
| AlbumAbsent
| AlbumNull
| AlbumObj (name : option pystr).

Record track_item := {
  tr_id : option pystr;
  tr_name : option pystr;
  tr_artists : list artist;
  tr_album : album_field;
  tr_track_number : option Z
}.

(** A page of [sp.album_tracks] and what [sp.next] does with its cursor.
    The provider offers finitely many pages. *)
Inductive page :=
| Page (items : list track_item) (next : cursor)
with cursor :=
| NoNext                    (* results['next'] is None *)
| NextPage (p : page)       (* sp.next(results) returns the next page *)
| NextNone                  (* sp.next(results) returns None *)
| NextRaises (e : exn).     (* sp.next(results) raises *)

Scheme page_cursor_ind := Induction for page Sort Prop
  with cursor_page_ind := Induction for cursor Sort Prop.

(** [subprocess.CompletedProcess] *)
Record completed := {
  returncode : Z;
  stdout : pystr;
  stderr : pystr
}.

(** The calls that leave the program, in the order they are made. *)
Inductive event :=
| EvTrack (ref : pystr)            (* sp.track(ref) *)
| EvAlbum (ref : pystr)            (* sp.album(ref) *)
| EvAlbumTracks (ref : pystr)      (* sp.album_tracks(ref) *)
| EvNext                           (* sp.next(results) *)
| EvRun (argv : list pystr)        (* subprocess.run(argv, ...) *)
| EvMakedirs (path : pystr)        (* os.makedirs(path, exist_ok=True) *)
| EvOpen (path : pystr).           (* open(path, 'w') *)

(** What the outside answers, given the calls made so far. A process that
    runs to completion may change the filesystem. *)
Record world := {
  client_id : option pystr;            (* os.getenv('SPOTIPY_CLIENT_ID') *)
  client_secret : option pystr;        (* os.getenv('SPOTIPY_CLIENT_SECRET') *)
  spotipy_installed : bool;
  sp_track : list event -> pystr -> res (option track_item);
  sp_album : list event -> pystr -> res (option pystr);
  sp_album_tracks : list event -> pystr -> res (option page);
  run_process : list event -> list pystr -> filesys -> res (completed * filesys);
  makedirs_error : list event -> pystr -> filesys -> option exn;
  write_error : list event -> pystr -> filesys -> option exn
}.

(** ** Effects: state and exceptions *)

Record state := {
  fs : filesys;
  trace : list event
}.

Definition M (A : Type) : Type := state -> res A * state.

Definition ret {A} (a : A) : M A := fun s => (Ret a, s).
Definition raise {A} (e : exn) : M A := fun s => (Raise e, s).

Definition bind {A B} (m : M A) (k : A -> M B) : M B :=
  fun s =>
    match m s with
    | (Ret a, s') => k a s'
    | (Raise e, s') => (Raise e, s')
    end.

(** [try: m  except ...: h e] *)
Definition try_except {A} (m : M A) (h : exn -> M A) : M A :=
  fun s =>
    match m s with
    | (Ret a, s') => (Ret a, s')
    | (Raise e, s') => h e s'
    end.

Notation "x <- m ;; k" := (bind m (fun x => k))
  (at level 61, m at next level, right associativity).
Notation "m ;;; k" := (bind m (fun _ => k))
  (at level 61, right associativity).

Definition log (e : event) (s : state) : state :=
  {| fs := fs s; trace := trace s ++ [e] |}.

Definition set_fs (f : filesys) (s : state) : state :=
  {| fs := f; trace := trace s |}.

Definition get_fs : M filesys := fun s => (Ret (fs s), s).

Section Calls.
Variable w : world.

Definition call_track (ref : pystr) : M (option track_item) :=
  fun s => (sp_track w (trace s) ref, log (EvTrack ref) s).

Definition call_album (ref : pystr) : M (option pystr) :=
  fun s => (sp_album w (trace s) ref, log (EvAlbum ref) s).

Definition call_album_tracks (ref : pystr) : M (option page) :=
  fun s => (sp_album_tracks w (trace s) ref, log (EvAlbumTracks ref) s).

Definition subprocess_run (argv : list pystr) : M completed :=
  fun s =>
    match run_process w (trace s) argv (fs s) with
    | Ret (c, f') => (Ret c, log (EvRun argv) (set_fs f' s))
    | Raise e => (Raise e, log (EvRun argv) s)
    end.

Definition makedirs (path : pystr) : M unit :=
  fun s =>
    match makedirs_error w (trace s) path (fs s) with
    | None => (Ret tt, log (EvMakedirs path) (set_fs (add_dir path (fs s)) s))
    | Some e => (Raise e, log (EvMakedirs path) s)
    end.

(** [with open(path, 'w') as f: f.write(content)] *)
Definition write_file (path content : pystr) : M unit :=
  fun s =>
    match write_error w (trace s) path (fs s) with
    | None => (Ret tt, log (EvOpen path) (set_fs (put_file path content (fs s)) s))
    | Some e => (Raise e, log (EvOpen path) s)
    end.
End Calls.

(** ** [download_youtube_track_for_spotify] *)

(** One turn of the loop over the lines of stdout:
    [if line.strip(): final_filepath = line.strip()]. *)
Definition keep_last (final_filepath : option pystr) (line : pystr)
  : option pystr :=
  if truthy (strip line) then Some (strip line) else final_filepath.

(** [for line in result.stdout.strip().split('\n'): ...], from
    [final_filepath = None]. *)
Definition final_filepath_of (out : pystr) : option pystr :=
  fold_left keep_last (split NEWLINE (strip out)) None.

Definition yt_dlp_command (output_template youtube_url : pystr) : list pystr :=
  [py "yt-dlp"; py "-x"; py "--audio-format"; py "mp3";
   py "--audio-quality"; py "0"; py "-o"; output_template;
   py "--print"; py "after_move:filepath";
   py "--no-simulate"; py "--no-playlist"; py "--no-warnings"; youtube_url].

(** The text of the placeholder file of a simulated download. *)
Definition dummy_content (track_filename_stem youtube_url : pystr) : pystr :=
  py "This is a simulated audio file for '" ++ track_filename_stem ++ py "'."
  ++ [NEWLINE] ++ py "Original YouTube URL: " ++ youtube_url ++ [NEWLINE].

Section Download.
Variable w : world.

(** Returns the path of the file ([Some]) or [None]. The branch on a
    non-zero exit status only prints, also when it finds "HTTP Error 403"
    in the tool's stderr. *)
Definition download_youtube_track_for_spotify
    (youtube_url base_dl_path artist_name album_name track_filename_stem : pystr)
    (simulate_only : bool) : M (option pystr) :=
  let specific_song_dir :=
    path_join base_dl_path [py "Music"; artist_name; album_name] in
  makedirs w specific_song_dir ;;;
  let output_template_for_yt_dlp :=
    path_join specific_song_dir [track_filename_stem ++ py ".%(ext)s"] in
  if simulate_only then
    let simulated_final_path :=
      path_join specific_song_dir [track_filename_stem ++ py ".mp3"] in
    try_except
      (write_file w simulated_final_path
         (dummy_content track_filename_stem youtube_url))
      (fun e => if is_OSError e then ret tt else raise e) ;;;
    ret (Some simulated_final_path)
  else
    try_except
      (result <- subprocess_run w
                   (yt_dlp_command output_template_for_yt_dlp youtube_url) ;;
       if (returncode result =? 0)%Z then
         match final_filepath_of (stdout result) with
         | Some final_filepath =>
             f <- get_fs ;;
             if truthy final_filepath && path_exists f final_filepath
             then ret (Some final_filepath)
             else ret None
         | None => ret None
         end
       else ret None)
      (fun _ => ret None).
End Download.

(** ** [process_spotify_link] *)

Definition truthy_opt (o : option pystr) : bool :=
  match o with
  | Some s => truthy s
  | None => false
  end.

(** [", ".join([artist['name'] for artist in artists if artist.get('name')])],
    then the fallback of the next line. *)
Definition named_artists (artists : list artist) : list pystr :=
  flat_map (fun a => match artist_name a with
                     | Some n => if truthy n then [n] else []
                     | None => []
                     end) artists.

Definition artist_names_of (t : track_item) : pystr :=
  let artist_names := join (py ", ") (named_artists (tr_artists t)) in
  if truthy artist_names then artist_names else py "Unknown Artist".

Definition track_name_of (t : track_item) : pystr :=
  match tr_name t with
  | Some n => n
  | None => py "Unknown Track"
  end.

Definition album_name_of (t : track_item) : pystr :=
  match tr_album t with
  | AlbumObj (Some n) => if truthy n then n else py "Unknown Album"
  | _ => py "Unknown Album"
  end.

(** [track_item.get('track_number', 1)] *)
Definition track_number_of (t : track_item) : Z :=
  match tr_track_number t with
  | Some n => n
  | None => 1%Z
  end.

(** [sanitize_filename(artist_names.split(',')[0])] *)
Definition s_artist_of (t : track_item) : pystr :=
  sanitize_filename (hd [] (split (ch ",") (artist_names_of t))).

Definition s_album_of (t : track_item) : pystr :=
  sanitize_filename (album_name_of t).

(** [f"{track_name} {artist_names} audio"] *)
Definition search_query_of (t : track_item) : pystr :=
  track_name_of t ++ py " " ++ artist_names_of t ++ py " audio".

Definition get_yt_url_command (search_query : pystr) : list pystr :=
  [py "yt-dlp"; py "--skip-download"; py "--no-warnings";
   py "--print"; py "webpage_url"; py "ytsearch1:" ++ search_query].

(** The filename stem handed to the download:
    [f"{str(track_number).zfill(2)} - {sanitize_filename(track_name)}"]. *)
Definition filename_stem_of (t : track_item) : pystr :=
  zfill 2 (str_of_int (track_number_of t)) ++ py " - "
  ++ sanitize_filename (track_name_of t).

(** How one turn of the loop over [tracks_to_download] ended: at one of the
    three [continue] statements, or after the call of
    [download_youtube_track_for_spotify], whose result the loop drops. *)
Inductive item_outcome :=
| SkippedNoId
| SkippedNoDetails
| LocatorMiss
| Fetched (r : option pystr).

(** The report the specification describes. Nothing in the source builds
    one; the type is here to state what the function hands back. *)
Record run_report := {
  entries : list (track_item * item_outcome);
  succeeded : nat;
  failed : nat
}.

(** [base_output_path] and [simulate_only] are arguments of
    [process_spotify_link] that the whole loop reads; they are shared here,
    so they come before [spotify_url] in the embedded functions. *)
Section Orchestrator.
Variable w : world.
Variables (base_output_path : pystr) (simulate_only : bool).

(** The check for a simplified track object at the head of the loop body:
    the full track, or the [continue] taken. *)
Definition full_track (item : track_item)
  : M (track_item + item_outcome) :=
  match tr_album item with
  | AlbumAbsent =>
      match tr_id item with
      | Some id =>
          if truthy id then
            track_item_full <- call_track w id ;;
            match track_item_full with
            | Some t => ret (inl t)
            | None => ret (inr SkippedNoDetails)
            end
          else ret (inr SkippedNoId)
      | None => ret (inr SkippedNoId)
      end
  | _ => ret (inl item)
  end.

(** The body of the loop from the search on, for a full track. *)
Definition locate_and_download (t : track_item) : M item_outcome :=
  let s_artist := s_artist_of t in
  let s_album := s_album_of t in
  yt_url_result <- subprocess_run w (get_yt_url_command (search_query_of t)) ;;
  if (returncode yt_url_result =? 0)%Z && truthy (strip (stdout yt_url_result))
  then
    let youtube_video_url :=
      hd [] (split NEWLINE (strip (stdout yt_url_result))) in
    makedirs w (path_join base_output_path [py "Music"; s_artist; s_album]) ;;;
    r <- download_youtube_track_for_spotify w youtube_video_url
           base_output_path s_artist s_album (filename_stem_of t)
           simulate_only ;;
    ret (Fetched r)
  else ret LocatorMiss.

(** One turn of [for i, track_item in enumerate(tracks_to_download)]. *)
Definition process_track (item : track_item) : M item_outcome :=
  full <- full_track item ;;
  match full with
  | inl t => locate_and_download t
  | inr skipped => ret skipped
  end.

(** The loop. An exception that leaves a turn leaves the loop: the
    handlers are outside it. The result lists how the completed turns
    ended and the exception that stopped the loop, if one did. *)
Fixpoint process_tracks (tracks : list track_item) (s : state)
  : list item_outcome * option exn * state :=
  match tracks with
  | [] => ([], None, s)
  | item :: rest =>
      match process_track item s with
      | (Ret o, s') =>
          let '(os, e, s'') := process_tracks rest s' in (o :: os, e, s'')
      | (Raise e, s') => ([], Some e, s')
      end
  end.

(** [while results['next']: ...], with [tracks_to_download] as [acc]. *)
Fixpoint follow_pages (next : cursor) (acc : list track_item)
  : M (list track_item) :=
  match next with
  | NoNext => ret acc
  | NextPage (Page items next') =>
      fun s =>
        follow_pages next'
          (match items with [] => acc | _ :: _ => acc ++ items end)
          (log EvNext s)
  | NextNone => fun s => (Raise TypeError, log EvNext s)
  | NextRaises e => fun s => (Raise e, log EvNext s)
  end.

(** The first half of the [try] block: [tracks_to_download], or [None]
    where the source returns early. *)
Definition tracks_to_download (spotify_url : pystr)
  : M (option (list track_item)) :=
  found <-
    (if contains (py "/track/") spotify_url then
       track_info <- call_track w spotify_url ;;
       match track_info with
       | Some t => ret (Some [t])
       | None => ret None
       end
     else if contains (py "/album/") spotify_url then
       album_info <- call_album w spotify_url ;;
       match album_info with
       | None => ret None
       | Some _ =>
           results <- call_album_tracks w spotify_url ;;
           match results with
           | Some (Page items next) =>
               l <- follow_pages next items ;; ret (Some l)
           | None => ret None
           end
       end
     else ret None) ;;
  match found with
  | Some [] => ret None
  | other => ret other
  end.

(** Every exit of the source is a bare [return] or the end of the body,
    so the caller receives [None]. *)
Definition process_spotify_link (spotify_url : pystr)
    (ffmpeg_available : bool) (s : state) : option run_report * state :=
  if negb (truthy_opt (client_id w) && truthy_opt (client_secret w))
  then (None, s)
  else if negb (spotipy_installed w) then (None, s)
  else
    match tracks_to_download spotify_url s with
    | (Ret (Some tracks), s') =>
        let '(_, _, s'') := process_tracks tracks s' in (None, s'')
    | (Ret None, s') => (None, s')
    | (Raise _, s') => (None, s')
    end.
End Orchestrator.

(** ** What the specification's words denote *)

(** The calls a fetch makes: the directory creation at its head (and the
    one the loop makes just before it), the placeholder write of a
    simulated download, the run of the download tool. The search tool is
    run with [--skip-download] in that position. *)
Definition is_fetch_event (e : event) : bool :=
  match e with
  | EvMakedirs _ | EvOpen _ => true
  | EvRun argv => pystr_eqb (nth 1 argv []) (py "-x")
  | _ => false
  end.

Definition fetch_events (tr : list event) : list event :=
  filter is_fetch_event tr.

(** A world in which no call made during a turn of the loop raises, save
    that the write of a placeholder may be refused with an [OSError], which
    the download handles itself. Searches may still find nothing and the
    download tool may still fail or be missing. *)
Definition calm (w : world) : Prop :=
  (forall h ref, exists v, sp_track w h ref = Ret v) /\
  (forall h q f, exists v, run_process w h (get_yt_url_command q) f = Ret v) /\
  (forall h p f, makedirs_error w h p f = None) /\
  (forall h p f e, write_error w h p f = Some e -> is_OSError e = true).

(** [p] is the last line of [out] with something left after stripping,
    stripped. *)
Definition last_nonblank_line (out p : pystr) : Prop :=
  exists before l after,
    split NEWLINE out = before ++ l :: after /\
    Forall (fun x => strip x = []) after /\
    strip l <> [] /\ p = strip l.

(** All the entries of a listing, page after page, and their number. *)
Fixpoint entries_from (next : cursor) : list track_item :=
  match next with
  | NextPage (Page items next') => items ++ entries_from next'
  | _ => []
  end.

Definition all_entries (p : page) : list track_item :=
  match p with Page items next => items ++ entries_from next end.

Fixpoint count_from (next : cursor) : nat :=
  match next with
  | NextPage (Page items next') => length items + count_from next'
  | _ => 0
  end.

Definition total_entries (p : page) : nat :=
  match p with Page items next => length items + count_from next end.

(** Every request for a further page is answered with a page. *)
Fixpoint served (next : cursor) : Prop :=
  match next with
  | NoNext => True
  | NextPage (Page _ next') => served next'
  | NextNone => False
  | NextRaises _ => False
  end.

(** ** Sample runs *)

Module Sample.

Definition track (name : string) (number : option Z) : track_item :=
  {| tr_id := Some (py "id");
     tr_name := Some (py name);
     tr_artists := [ {| artist_name := Some (py "Band") |} ];
     tr_album := AlbumObj (Some (py "Album"));
     tr_track_number := number |}.

Definition intro := track "Intro" None.
Definition song_a := track "Song A" (Some 1%Z).
Definition song_b := track "Song B" (Some 2%Z).

(** Two artists, the first with a comma in its own name. *)
Definition comma_track : track_item :=
  {| tr_id := Some (py "id");
     tr_name := Some (py "Song");
     tr_artists := [ {| artist_name := Some (py "Tyler, The Creator") |};
                     {| artist_name := Some (py "Guest") |} ];
     tr_album := AlbumObj (Some (py "Album"));
     tr_track_number := Some 3%Z |}.

Definition album_url := py "https://open.spotify.com/album/1".
Definition found_url := py "https://youtu.be/x".

Definition done (code : Z) (out : pystr) : completed :=
  {| returncode := code; stdout := out; stderr := [] |}.

(** The search tool: finds [found_url] unless the query is in [missing]. *)
Definition search (missing : list pystr) (argv : list pystr) : completed :=
  if existsb (fun q => pystr_eqb (nth 5 argv []) (py "ytsearch1:" ++ q)) missing
  then done 0 []
  else done 0 (found_url ++ [NEWLINE]).

(** A world with valid credentials whose album has the given first page.
    [missing] lists the queries without a result, [mkdir_err] and
    [write_err] say which filesystem calls fail, and [tool] is what the
    download tool does. *)
Definition mk_world (first : option page) (missing : list pystr)
    (mkdir_err write_err : pystr -> option exn)
    (tool : filesys -> res (completed * filesys)) : world :=
  {| client_id := Some (py "id");
     client_secret := Some (py "secret");
     spotipy_installed := true;
     sp_track := fun _ _ => Ret None;
     sp_album := fun _ _ => Ret (Some (py "Album"));
     sp_album_tracks := fun _ _ => Ret first;
     run_process := fun _ argv f =>
       if pystr_eqb (nth 1 argv []) (py "--skip-download")
       then Ret (search missing argv, f)
       else tool f;
     makedirs_error := fun _ p _ => mkdir_err p;
     write_error := fun _ p _ => write_err p |}.

Definition no_error (_ : pystr) : option exn := None.
Definition no_tool (_ : filesys) : res (completed * filesys) :=
  Raise FileNotFoundError.

Definition start : state := {| fs := empty_fs; trace := [] |}.

(** The album of the specification's scenario, on one page. *)
Definition scenario_page : page := Page [intro; song_a; song_b] NoNext.
Definition scenario_world : world :=
  mk_world (Some scenario_page) [] no_error no_error no_tool.

(** The same album split over two pages. *)
Definition two_pages : page :=
  Page [intro; song_a] (NextPage (Page [song_b] NoNext)).

Definition paged_world : world :=
  mk_world (Some two_pages) [] no_error no_error no_tool.

(** A simplified track object, as an album listing has them. *)
Definition thin : track_item :=
  {| tr_id := Some (py "t1");
     tr_name := Some (py "Thin");
     tr_artists := [];
     tr_album := AlbumAbsent;
     tr_track_number := Some 1%Z |}.

(** The catalog answers the request for a track's details with an error. *)
Definition flaky_world : world :=
  {| client_id := client_id scenario_world;
     client_secret := client_secret scenario_world;
     spotipy_installed := true;
     sp_track := fun _ _ => Raise SpotifyException;
     sp_album := sp_album scenario_world;
     sp_album_tracks := fun _ _ => Ret (Some (Page [thin; song_a] NoNext));
     run_process := run_process scenario_world;
     makedirs_error := makedirs_error scenario_world;
     write_error := write_error scenario_world |}.

(** The second query has no result. *)
Definition miss_world : world :=
  mk_world (Some scenario_page) [search_query_of song_a]
           no_error no_error no_tool.

(** Directories can be created, files cannot be written. *)
Definition nowrite_world : world :=
  mk_world (Some scenario_page) [] no_error (fun _ => Some OSError) no_tool.

(** The download tool succeeds, saves [/out/a.mp3] and prints its path
    followed by an empty line. *)
Definition real_world : world :=
  mk_world (Some scenario_page) [] no_error no_error
    (fun f => Ret (done 0 (py "/out/a.mp3" ++ [NEWLINE; NEWLINE]),
                   put_file (py "/out/a.mp3") (py "audio") f)).

End Sample.

(** ** Further sample runs *)

Module Sample2.

(** No client secret in the environment. *)
Definition no_secret_world : world :=
  {| client_id := Some (py "id");
     client_secret := None;
     spotipy_installed := true;
     sp_track := sp_track Sample.scenario_world;
     sp_album := sp_album Sample.scenario_world;
     sp_album_tracks := sp_album_tracks Sample.scenario_world;
     run_process := run_process Sample.scenario_world;
     makedirs_error := makedirs_error Sample.scenario_world;
     write_error := write_error Sample.scenario_world |}.

(** The request for the second page of the album is answered with an
    error. *)
Definition broken_listing : page :=
  Page [Sample.intro; Sample.song_a] (NextRaises SpotifyException).

Definition broken_world : world :=
  Sample.mk_world (Some broken_listing) [] Sample.no_error Sample.no_error
    Sample.no_tool.

(** The download tool exits with status 1. *)
Definition failing_tool_world : world :=
  Sample.mk_world (Some Sample.scenario_page) [] Sample.no_error
    Sample.no_error
    (fun f => Ret ({| returncode := 1; stdout := [];
                      stderr := py "ERROR: HTTP Error 403: Forbidden" |}, f)).

(** A disk that already holds another file. *)
Definition other_file : pystr := py "/root/Music/Band/Album/keep.mp3".

Definition busy_start : state :=
  {| fs := put_file other_file (py "audio") empty_fs; trace := [] |}.

End Sample2.

(** ** Further sample tracks *)

Module Sample3.

(** An artist whose name is made of question marks only. *)
Definition nameless : track_item :=
  {| tr_id := Some (py "id");
     tr_name := Some (py "Song");
     tr_artists := [ {| artist_name := Some (py "???") |} ];
     tr_album := AlbumObj (Some (py "Album"));
     tr_track_number := Some 7%Z |}.

End Sample3.

(** ** A batch with every kind of failure *)

Module Sample7.

(** An entry of an album listing that carries no id. *)
Definition anonymous : track_item :=
  {| tr_id := None;
     tr_name := Some (py "Anonymous");
     tr_artists := [];
     tr_album := AlbumAbsent;
     tr_track_number := None |}.

(** The catalog has no details for a simplified entry, the search for
    "Song A" finds nothing, and the download tool exits with status 1. *)
Definition mixed_world : world :=
  Sample.mk_world (Some Sample.scenario_page) [search_query_of Sample.song_a]
    Sample.no_error Sample.no_error
    (fun f => Ret ({| returncode := 1; stdout := [];
                      stderr := py "ERROR: HTTP Error 403: Forbidden" |}, f)).

Definition batch : list track_item :=
  [anonymous; Sample.thin; Sample.song_a; Sample.intro; Sample.song_b].

End Sample7.

(** The check behind the two-digit prefix: the padded number is two decimal
    digits whose value is the number. *)
Definition two_digits_of (n : Z) : bool :=
  match zfill 2 (str_of_int n) with
  | [d1; d2] =>
      ((48 <=? d1) && (d1 <=? 57) && (48 <=? d2) && (d2 <=? 57))%N
      && (n =? 10 * (Z.of_N d1 - 48) + (Z.of_N d2 - 48))%Z
  | _ => false
  end.

(** ** [get_video_info] and [download_audio] *)

(** [s.rfind(c)] for a one-character [c]: the index of its last
    occurrence, or -1. *)
Fixpoint rfind_from (c : char) (s : pystr) (i : Z) (found : Z) : Z :=
  match s with
  | [] => found
  | x :: s' => rfind_from c s' (i + 1) (if N.eqb x c then i else found)
  end.

Definition rfind (c : char) (s : pystr) : Z := rfind_from c s 0 (-1).

(** [os.path.splitext(p)[0]]: the part before the last dot of the last
    component, unless that component has nothing but dots before it. *)
Definition splitext_root (p : pystr) : pystr :=
  let sepIndex := rfind (ch "/") p in
  let dotIndex := rfind (ch ".") p in
  if (sepIndex <? dotIndex)%Z then
    let filename := skipn (Z.to_nat (sepIndex + 1))
                          (firstn (Z.to_nat dotIndex) p) in
    if existsb (fun x => negb (N.eqb x (ch "."))) filename
    then firstn (Z.to_nat dotIndex) p
    else p
  else p.

(** [s.rstrip(c)] for a one-character [c]. *)
Definition rstrip_char (c : char) (s : pystr) : pystr :=
  rev (dropwhile (N.eqb c) (rev s)).

(** [os.path.dirname(p)] of [posixpath]. *)
Definition dirname (p : pystr) : pystr :=
  let i := (rfind (ch "/") p + 1)%Z in
  let head := firstn (Z.to_nat i) p in
  if truthy head && negb (forallb (N.eqb (ch "/")) head)
  then rstrip_char (ch "/") head
  else head.

(** [s.lower().endswith('.mp3')]. Only [M] and [P] have [m] and [p] as
    their lower case, and nothing but [.] and [3] gives [.] and [3], so the
    test reads the last four code points of [s]. *)
Definition lower_endswith_mp3 (s : pystr) : bool :=
  match rev s with
  | c3 :: p :: m :: dot :: _ =>
      N.eqb dot (ch ".")
      && (N.eqb m (ch "m") || N.eqb m (ch "M"))
      && (N.eqb p (ch "p") || N.eqb p (ch "P"))
      && N.eqb c3 (ch "3")
  | _ => false
  end.

(** What [json.loads] makes of a line: it raises [JSONDecodeError], or
    gives an object (with its ['title'] entry, if any: a string or null), or
    gives a value that has no [get]. *)
Inductive json_value :=
| JsonDecodeError
| JsonObject (title : option (option pystr))
| JsonOther.

(** The last line with something left after [strip()], unstripped, as the
    title loop of [get_video_info] keeps it. *)
Definition keep_last_raw (acc : option pystr) (line : pystr) : option pystr :=
  if truthy (strip line) then Some line else acc.

Definition json_output_title_of (out : pystr) : option pystr :=
  fold_left keep_last_raw (split NEWLINE (strip out)) None.

Definition filename_command (output_path_template youtube_url : pystr)
  : list pystr :=
  [py "yt-dlp"; py "-x"; py "--audio-format"; py "mp3";
   py "-o"; output_path_template; py "--get-filename"; py "--no-playlist";
   youtube_url].

Definition yt_dlp_json_command (youtube_url : pystr) : list pystr :=
  [py "yt-dlp"; py "--print"; py "json"; py "--simulate";
   py "--no-playlist"; youtube_url].

(** The command of the real download in [download_audio]. *)
Definition yt_dlp_audio_command (output_template youtube_url : pystr)
  : list pystr :=
  [py "yt-dlp"; py "-x"; py "--audio-format"; py "mp3";
   py "--audio-quality"; py "0"; py "-o"; output_template;
   py "--print"; py "after_move:filepath";
   py "--no-simulate"; py "--no-playlist"; youtube_url].

Definition unknown_title : pystr := py "Unknown_Title_Due_To_Fetch_Error".

(** The text of the placeholder file of [download_audio]. *)
Definition audio_dummy_content (title youtube_url : pystr) : pystr :=
  py "This is a simulated audio file for '" ++ title ++ py "'."
  ++ [NEWLINE] ++ py "URL: " ++ youtube_url ++ [NEWLINE].

Section DirectDownload.
Variable w : world.
Variable json_loads : pystr -> json_value.

(** The title lookup inside [get_video_info], after the filename is known:
    the title to report, or the exception that leaves the inner [try]
    (a value without [get] raises [AttributeError]). *)
Definition fetch_title (youtube_url : pystr) : M (option pystr) :=
  json_result <- subprocess_run w (yt_dlp_json_command youtube_url) ;;
  if (returncode json_result =? 0)%Z && truthy (stdout json_result) then
    match json_output_title_of (stdout json_result) with
    | Some json_output_title =>
        if truthy json_output_title then
          match json_loads json_output_title with
          | JsonDecodeError => ret (Some unknown_title)
          | JsonObject None => ret (Some unknown_title)
          | JsonObject (Some title) => ret title
          | JsonOther => raise OtherException
          end
        else ret (Some unknown_title)
    | None => ret (Some unknown_title)
    end
  else ret (Some unknown_title).

(** Returns [(simulated_filepath, title)], or [(None, None)]. *)
Definition get_video_info (youtube_url output_path_template : pystr)
  : M (option pystr * option pystr) :=
  try_except
    (filename_result <-
       subprocess_run w (filename_command output_path_template youtube_url) ;;
     if (returncode filename_result =? 0)%Z
        && truthy (strip (stdout filename_result))
     then
       let simulated_filepath := strip (stdout filename_result) in
       let simulated_filepath :=
         if negb (lower_endswith_mp3 simulated_filepath)
         then splitext_root simulated_filepath ++ py ".mp3"
         else simulated_filepath in
       title <- fetch_title youtube_url ;;
       if truthy simulated_filepath
       then ret (Some simulated_filepath, title)
       else ret (None, None)
     else ret (None, None))
    (fun _ => ret (None, None)).

(** The second definition of [download_audio], the one in force once the
    module is loaded. *)
Definition download_audio (youtube_url output_path : pystr)
    (simulate_only : bool) : M (option pystr) :=
  let music_dir := path_join output_path [py "Music"] in
  makedirs w music_dir ;;;
  let output_template := path_join music_dir [py "%(title)s.%(ext)s"] in
  if simulate_only then
    info <- get_video_info youtube_url output_template ;;
    match info with
    | (Some simulated_filepath, Some title) =>
        if truthy simulated_filepath && truthy title then
          makedirs w (dirname simulated_filepath) ;;;
          write_file w simulated_filepath
            (audio_dummy_content title youtube_url) ;;;
          ret (Some simulated_filepath)
        else ret None
    | _ => ret None
    end
  else
    try_except
      (result <- subprocess_run w
                   (yt_dlp_audio_command output_template youtube_url) ;;
       if (returncode result =? 0)%Z then
         match final_filepath_of (stdout result) with
         | Some final_filepath =>
             f <- get_fs ;;
             if truthy final_filepath && path_exists f final_filepath
             then ret (Some final_filepath)
             else ret None
         | None => ret None
         end
       else ret None)
      (fun _ => ret None).
End DirectDownload.

(** ** Sample runs of [download_audio] *)

Module Sample4.

Definition video_url : pystr := py "https://www.youtube.com/watch?v=1".

(** [json.loads] for the samples: the line [{}] is an object without
    title, any other line that starts with a brace is an object titled
    ["Clip"], the rest does not parse. *)
Definition loads (line : pystr) : json_value :=
  if pystr_eqb line (py "{}") then JsonObject None
  else if startswith (py "{") line then JsonObject (Some (Some (py "Clip")))
  else JsonDecodeError.

(** A world whose [yt-dlp] prints [name] for the filename query and [json]
    for the title query, and is missing for anything else. *)
Definition video_world (name json : pystr) : world :=
  {| client_id := None;
     client_secret := None;
     spotipy_installed := false;
     sp_track := fun _ _ => Ret None;
     sp_album := fun _ _ => Ret None;
     sp_album_tracks := fun _ _ => Ret None;
     run_process := fun _ argv f =>
       if pystr_eqb (nth 6 argv []) (py "--get-filename")
       then Ret (Sample.done 0 name, f)
       else if pystr_eqb (nth 3 argv []) (py "--simulate")
       then Ret (Sample.done 0 json, f)
       else Raise FileNotFoundError;
     makedirs_error := fun _ _ _ => None;
     write_error := fun _ _ _ => None |}.

Definition webm_world : world :=
  video_world (py "/dl/Music/Clip.webm" ++ [NEWLINE])
              (py "{title: Clip}" ++ [NEWLINE]).

End Sample4.

(** ** The script: the block under [if __name__ == "__main__":] *)

(** The parsed command line. *)
Record script_args := {
  arg_url : pystr;
  arg_output : option pystr;      (* --output *)
  arg_simulate : bool             (* --simulate *)
}.

(** What the block reads besides the [world]: the home directory
    ([os.path.expanduser('~')], on a system where [os.name] is not ['nt'])
    and whether [shutil.which("ffmpeg")] finds something. *)
Record script_env := {
  home_dir : pystr;
  ffmpeg_on_path : bool
}.

(** How the run of the script ends: at the end of the block, at an
    [exit(code)], with an exception of a call, or with the [NameError] of a
    name that is not bound yet. *)
Inductive script_end :=
| Finished
| Exited (code : Z)
| Uncaught (e : exn)
| UncaughtNameError (name : pystr).

(** [get_download_path()], the branch for [os.name != 'nt']. *)
Definition get_download_path (env : script_env) : pystr :=
  path_join (home_dir env) [py "Downloads"].

Inductive url_kind := Youtube | Spotify.

(** The chain of tests that sets [url_type]. *)
Definition url_type_of (url : pystr) : option url_kind :=
  if contains (py "youtube.com") url || contains (py "youtu.be") url
  then Some Youtube
  else if contains (py "open.spotify.com") url then Some Spotify
  else None.

Section Script.
Variable w : world.
Variable json_loads : pystr -> json_value.
Variable env : script_env.

(** The block runs when the file is executed, at the place where it
    stands: [download_audio] is bound by then, [process_spotify_link],
    which is defined further down, is not, so the call of it raises
    [NameError]. *)
Definition main (args : script_args) (s : state) : script_end * state :=
  let output_directory :=
    match arg_output args with
    | Some o => if truthy o then o else get_download_path env
    | None => get_download_path env
    end in
  if negb (truthy output_directory) then (Exited 1, s)
  else
    match url_type_of (arg_url args) with
    | None => (Exited 1, s)
    | Some Youtube =>
        match download_audio w json_loads (arg_url args) output_directory
                (arg_simulate args) s with
        | (Ret _, s') => (Finished, s')
        | (Raise e, s') => (Uncaught e, s')
        end
    | Some Spotify =>
        if negb (truthy_opt (client_id w) && truthy_opt (client_secret w))
        then (Finished, s)
        else (UncaughtNameError (py "process_spotify_link"), s)
    end.
End Script.

Module Sample5.

Definition env : script_env :=
  {| home_dir := py "/home/u"; ffmpeg_on_path := true |}.

Definition spotify_args : script_args :=
  {| arg_url := py "https://open.spotify.com/track/4cOdK2wGLETKBW3PvgPWqT";
     arg_output := None;
     arg_simulate := true |}.

(** A Spotify link that carries the word [youtube.com] in a parameter. *)
Definition mixed_args : script_args :=
  {| arg_url := py "https://open.spotify.com/track/4c?utm_source=youtube.com";
     arg_output := Some (py "/dl");
     arg_simulate := true |}.

End Sample5.

(** ** [audio_player.py]: the [AudioPlayer] class *)

Module Player.

(** The attributes of an [AudioPlayer]. *)
Record player := {
  current_song_path : option pystr;
  playing : bool;
  paused : bool
}.

(** The calls made on [pygame.mixer.music]. *)
Inductive mixer_call :=
| MusicLoad (song_path : pystr)
| MusicPlay
| MusicPause
| MusicUnpause
| MusicStop.

(** The state [__init__] leaves. *)
Definition init : player :=
  {| current_song_path := None; playing := false; paused := false |}.

(** In each method [ready] is [pygame and pygame.mixer.get_init()]. For
    [load_song], [loads] says whether [pygame.mixer.music.load] returns
    ([true]) or raises [pygame.error]. The result is the value returned,
    the new attributes and the calls made. *)
Definition load_song (ready loads : bool) (song_path : pystr) (p : player)
  : bool * player * list mixer_call :=
  if negb ready then (false, p, [])
  else if loads then
    (true,
     {| current_song_path := Some song_path;
        playing := playing p; paused := paused p |},
     [MusicLoad song_path])
  else
    (false,
     {| current_song_path := None; playing := playing p; paused := paused p |},
     [MusicLoad song_path]).

Definition play_song (ready : bool) (p : player) : player * list mixer_call :=
  if negb ready || negb (truthy_opt (current_song_path p)) then (p, [])
  else if negb (playing p) || paused p then
    ({| current_song_path := current_song_path p;
        playing := true; paused := false |}, [MusicPlay])
  else (p, []).

Definition pause_song (ready : bool) (p : player) : player * list mixer_call :=
  if negb ready then (p, [])
  else if playing p && negb (paused p) then
    ({| current_song_path := current_song_path p;
        playing := playing p; paused := true |}, [MusicPause])
  else (p, []).

Definition unpause_song (ready : bool) (p : player)
  : player * list mixer_call :=
  if negb ready then (p, [])
  else if playing p && paused p then
    ({| current_song_path := current_song_path p;
        playing := playing p; paused := false |}, [MusicUnpause])
  else (p, []).

Definition stop_song (ready : bool) (p : player) : player * list mixer_call :=
  if negb ready then (p, [])
  else
    ({| current_song_path := None; playing := false; paused := false |},
     [MusicStop]).

(** A method call together with what the mixer does at that moment. *)
Inductive command :=
| Load (ready loads : bool) (song_path : pystr)
| Play (ready : bool)
| Pause (ready : bool)
| Unpause (ready : bool)
| Stop (ready : bool).

Definition step (c : command) (p : player) : player * list mixer_call :=
  match c with
  | Load ready loads song_path =>
      let '(_, p', calls) := load_song ready loads song_path p in (p', calls)
  | Play ready => play_song ready p
  | Pause ready => pause_song ready p
  | Unpause ready => unpause_song ready p
  | Stop ready => stop_song ready p
  end.

(** A sequence of method calls on one player. *)
Fixpoint run (cs : list command) (p : player) : player * list mixer_call :=
  match cs with
  | [] => (p, [])
  | c :: rest =>
      let '(p1, calls1) := step c p in
      let '(p2, calls2) := run rest p1 in
      (p2, calls1 ++ calls2)
  end.

Definition ready_of (c : command) : bool :=
  match c with
  | Load ready _ _ | Play ready | Pause ready | Unpause ready | Stop ready =>
      ready
  end.

End Player.

(** ** [main_player.py]: [format_duration] *)

(** The argument is [None] or a float; a finite float is a rational
    number, and [int()] of it drops the fraction, towards zero. ([nan] and
    the infinities, for which [int()] raises, are left out.) For an integer
    the format [:02d] pads as [zfill(2)] does. *)
Definition format_duration (seconds_float : option QArith_base.Q) : pystr :=
  match seconds_float with
  | None => py "0:00"
  | Some x =>
      let seconds :=
        Z.quot (QArith_base.Qnum x) (Z.pos (QArith_base.Qden x)) in
      let minutes := (seconds / 60)%Z in
      let seconds := (seconds mod 60)%Z in
      str_of_int minutes ++ py ":" ++ zfill 2 (str_of_int seconds)
  end.

(** ** [database_manager.py]: the tables and the functions that write them *)

(** The tables are taken as [create_tables] makes them, and the database
    engine as working: a connection that cannot be opened, a locked
    database and a full disk are left out. Rows are listed in the order of
    their insertion. Foreign keys are declared by the schema, but the
    functions never turn their enforcement on, and SQLite leaves it off.

    What is kept of the engine's failures is what the arguments of a call
    decide: [sqlite3] raises when it cannot bind a parameter, and the
    engine refuses an [INSERT] once the largest id has been given. Each
    function that writes catches these with [except Exception] and returns
    [None] (or [False]); nothing is written then. *)
Module Library.

(** SQLite stores an INTEGER in 64 bits, and [sqlite3] raises
    [OverflowError] for a Python integer outside that range. *)
Definition max_rowid : Z := 9223372036854775807%Z.

Definition int64 (n : Z) : bool :=
  ((- max_rowid - 1 <=? n) && (n <=? max_rowid))%Z.

(** [sqlite3] hands a string over as UTF-8, and raises
    [UnicodeEncodeError] for one that holds a surrogate (U+D800 to U+DFFF),
    as [os.walk] yields for a file name that is not valid UTF-8. *)
Definition encodable (s : pystr) : bool :=
  forallb (fun c => (c <? 55296)%N || (57343 <? c)%N) s.

Section Tables.
(** The columns of a track that no constraint touches: title, artist,
    album, track number, duration, album art path. *)
Variable meta : Type.

(** Whether [sqlite3] can bind the values of a call of [add_track], the
    encoding of the filepath apart: the six other values are of types it
    knows, their strings can be encoded, their integers fit in 64 bits, and
    no string is longer than the engine allows. *)
Variable binds : pystr -> meta -> bool.

Record track_row := {
  track_id : Z;
  filepath : pystr;               (* TEXT UNIQUE NOT NULL *)
  columns : meta
}.

Record playlist_entry := {
  entry_id : Z;
  playlist_id : Z;
  entry_track_id : Z;
  sequence : Z
}.

(** [tracks_seq] and [entries_seq] are the counters that
    [INTEGER PRIMARY KEY AUTOINCREMENT] keeps: the largest id ever given. *)
Record db := {
  tracks : list track_row;
  tracks_seq : Z;
  playlist_tracks : list playlist_entry;
  entries_seq : Z
}.

Definition empty : db :=
  {| tracks := []; tracks_seq := 0; playlist_tracks := []; entries_seq := 0 |}.

(** The id an [AUTOINCREMENT] column gives to a new row: one more than the
    largest id the table has or ever had. *)
Definition next_id (seq : Z) (ids : list Z) : Z :=
  (1 + fold_left Z.max ids seq)%Z.

(** Once the largest id has been given, the engine refuses every [INSERT]
    with [SQLITE_FULL]; it finds this out when it draws the new id, before
    it looks at the constraints. *)
Definition tracks_full (d : db) : bool :=
  (max_rowid <? next_id (tracks_seq d) (map track_id (tracks d)))%Z.

Definition entries_full (d : db) : bool :=
  (max_rowid <? next_id (entries_seq d) (map entry_id (playlist_tracks d)))%Z.

(** [SELECT id FROM tracks WHERE filepath = ?] and [fetchone()]. *)
Definition id_of_filepath (fp : pystr) (d : db) : option Z :=
  option_map track_id (find (fun r => pystr_eqb fp (filepath r)) (tracks d)).

(** [add_track], with a string as filepath. A parameter that cannot be
    bound and a table that has run out of ids end in the handler of
    [Exception]: [None] is returned and nothing is written. Otherwise the
    [INSERT] fails with [IntegrityError] when the filepath is already
    there, and the id of the row that has it is returned; or it succeeds
    and the new row's id is returned. *)
Definition add_track (fp : pystr) (cols : meta) (d : db) : option Z * db :=
  if negb (encodable fp && binds fp cols) then (None, d)
  else if tracks_full d then (None, d)
  else if existsb (fun r => pystr_eqb fp (filepath r)) (tracks d)
  then (id_of_filepath fp d, d)
  else
    let id := next_id (tracks_seq d) (map track_id (tracks d)) in
    (Some id,
     {| tracks := tracks d ++ [{| track_id := id; filepath := fp;
                                  columns := cols |}];
        tracks_seq := id;
        playlist_tracks := playlist_tracks d;
        entries_seq := entries_seq d |}).

(** What a call of [get_track_by_id] with an integer does: it returns the
    row, or [None], or the [OverflowError] of the bind leaves the function,
    which has no handler. *)
Inductive track_lookup :=
| TrackRow (r : track_row)
| NoTrack
| LookupRaises.

(** [get_track_by_id] *)
Definition get_track_by_id (id : Z) (d : db) : track_lookup :=
  if int64 id then
    match find (fun r => Z.eqb (track_id r) id) (tracks d) with
    | Some r => TrackRow r
    | None => NoTrack
    end
  else LookupRaises.

(** [get_track_count] *)
Definition get_track_count (d : db) : nat := length (tracks d).

(** [SELECT MAX(sequence) FROM playlist_tracks WHERE playlist_id = ?]:
    [None] for SQL's NULL, when the playlist has no entry. *)
Definition max_sequence (pid : Z) (d : db) : option Z :=
  fold_left
    (fun acc e =>
       if Z.eqb (playlist_id e) pid then
         match acc with
         | None => Some (sequence e)
         | Some m => Some (Z.max m (sequence e))
         end
       else acc)
    (playlist_tracks d) None.

(** [add_track_to_playlist], with integers as arguments. The [SELECT]
    binds [playlist_id]; the [INSERT] binds it again, then [track_id] and
    [next_sequence]. An [OverflowError] of a bind and a table that has run
    out of ids end in the handler: [None] is returned and nothing is
    written. *)
Definition add_track_to_playlist (pid tid : Z) (d : db) : option Z * db :=
  if negb (int64 pid) then (None, d)
  else
    let next_sequence :=
      match max_sequence pid d with
      | None => 0%Z
      | Some max_seq => (max_seq + 1)%Z
      end in
    if negb (int64 tid && int64 next_sequence) then (None, d)
    else if entries_full d then (None, d)
    else
      let id := next_id (entries_seq d) (map entry_id (playlist_tracks d)) in
      (Some id,
       {| tracks := tracks d;
          tracks_seq := tracks_seq d;
          playlist_tracks :=
            playlist_tracks d ++ [{| entry_id := id; playlist_id := pid;
                                     entry_track_id := tid;
                                     sequence := next_sequence |}];
          entries_seq := id |}).

(** [remove_track_from_playlist], called with the id of the entry, an
    integer: [True] when a row was deleted, [False] when none was or when
    the id could not be bound. *)
Definition remove_track_from_playlist (id : Z) (d : db) : bool * db :=
  if negb (int64 id) then (false, d)
  else
    (existsb (fun e => Z.eqb (entry_id e) id) (playlist_tracks d),
     {| tracks := tracks d;
        tracks_seq := tracks_seq d;
        playlist_tracks :=
          filter (fun e => negb (Z.eqb (entry_id e) id)) (playlist_tracks d);
        entries_seq := entries_seq d |}).

(** The calls that change the tables, to speak of what any sequence of
    them leaves. *)
Inductive call :=
| AddTrack (fp : pystr) (cols : meta)
| AddToPlaylist (pid tid : Z)
| RemoveEntry (id : Z).

Definition apply_call (d : db) (c : call) : db :=
  match c with
  | AddTrack fp cols => snd (add_track fp cols d)
  | AddToPlaylist pid tid => snd (add_track_to_playlist pid tid d)
  | RemoveEntry id => snd (remove_track_from_playlist id d)
  end.

(** No two tracks share an id or a filepath; no two entries share an id. *)
Definition keys_unique (d : db) : Prop :=
  NoDup (map track_id (tracks d)) /\
  NoDup (map filepath (tracks d)) /\
  NoDup (map entry_id (playlist_tracks d)).

(** The ids of the tracks and their counter are 64-bit integers, as in
    every table that SQLite holds. *)
Definition track_ids_int64 (d : db) : bool :=
  int64 (tracks_seq d) && forallb (fun r => int64 (track_id r)) (tracks d).
End Tables.

End Library.

Module Sample6.

(** The other columns of a track, for the samples: its title, which can
    be bound when it can be encoded. *)
Definition binds (_ title : pystr) : bool := Library.encodable title.

Definition one : Library.db pystr :=
  snd (Library.add_track binds (py "/m/a.mp3") (py "A") (Library.empty _)).

Definition lib : Library.db pystr :=
  snd (Library.add_track binds (py "/m/b.mp3") (py "B") one).

(** A file name that is not valid UTF-8, as [os.walk] decodes it: the byte
    0xE9 becomes the surrogate U+DCE9. *)
Definition undecodable : pystr := py "/m/caf" ++ [56553%N] ++ py ".mp3".

(** Playlist 1 after three entries were added and the second removed, and
    one entry of playlist 2. *)
Definition listed : Library.db pystr :=
  fold_left (Library.apply_call binds)
    [Library.AddToPlaylist _ 1 1; Library.AddToPlaylist _ 1 2;
     Library.AddToPlaylist _ 1 1; Library.AddToPlaylist _ 2 1;
     Library.RemoveEntry _ 2] lib.

End Sample6.

(** ** [library_scanner.py]: the tags taken from the path *)

Module Scanner.

(** [s.replace(old, '')]: the occurrences of [old] are found from the left
    and do not overlap. Each step uses up a character of [s], so
    [length s + 1] steps are enough. *)
Fixpoint remove_all_steps (steps : nat) (old s : pystr) : pystr :=
  match steps with
  | 0 => s
  | S k =>
      if startswith old s then remove_all_steps k old (skipn (length old) s)
      else match s with
           | [] => []
           | c :: s' => c :: remove_all_steps k old s'
           end
  end.

Definition remove_all (old s : pystr) : pystr :=
  if truthy old then remove_all_steps (S (length s)) old s else s.

(** [s.strip(c)] for a one-character [c]. *)
Definition strip_char (c : char) (s : pystr) : pystr :=
  rstrip_char c (dropwhile (N.eqb c) s).

(** [filepath.replace(music_library_path, '').strip(os.sep).split(os.sep)],
    with [os.sep] the slash. *)
Definition path_parts (music_library_path filepath : pystr) : list pystr :=
  split (ch "/")
    (strip_char (ch "/") (remove_all music_library_path filepath)).

(** The fallbacks of [scan_and_populate_library] for the tags that are
    missing or empty: the title from the file name, the artist and the
    album from the first two directories when the file is at least two
    directories deep. The result is [(title, artist, album)]. *)
Definition tags_with_fallbacks (music_library_path filepath : pystr)
    (title artist album : option pystr) : pystr * pystr * pystr :=
  let path_parts := path_parts music_library_path filepath in
  let title :=
    match title with
    | Some t => if truthy t then t else splitext_root (last path_parts [])
    | None => splitext_root (last path_parts [])
    end in
  let artist :=
    match artist with
    | Some a =>
        if truthy a then a
        else if Nat.ltb 2 (length path_parts) then nth 0 path_parts []
        else py "Unknown Artist"
    | None =>
        if Nat.ltb 2 (length path_parts) then nth 0 path_parts []
        else py "Unknown Artist"
    end in
  let album :=
    match album with
    | Some a =>
        if truthy a then a
        else if Nat.ltb 2 (length path_parts) then nth 1 path_parts []
        else py "Unknown Album"
    | None =>
        if Nat.ltb 2 (length path_parts) then nth 1 path_parts []
        else py "Unknown Album"
    end in
  (title, artist, album).

End Scanner.

(* ================================================================= *)
(** * Part II: properties *)
(* ================================================================= *)

(** ** Stripping *)

Lemma dropwhile_decomp (p : char -> bool) (s : pystr) :
  exists pre, s = pre ++ dropwhile p s /\ forallb p pre = true.
Proof.
  induction s as [|c s IH]; simpl.
  - exists []; auto.
  - destruct (p c) eqn:Hc.
    + destruct IH as [pre [E F]].
      exists (c :: pre); simpl; rewrite Hc, F; split; [congruence | reflexivity].
    + exists []; auto.
Qed.

Lemma dropwhile_head (p : char -> bool) (s : pystr) c s' :
  dropwhile p s = c :: s' -> p c = false.
Proof.
  induction s as [|x s IH]; simpl; [discriminate|].
  destruct (p x) eqn:Hx; auto.
  intros E; injection E as -> _; exact Hx.
Qed.

Lemma dropwhile_length (p : char -> bool) (s : pystr) :
  length (dropwhile p s) <= length s.
Proof.
  induction s as [|c s IH]; simpl; auto.
  destruct (p c); simpl; lia.
Qed.

Lemma dropwhile_incl (p : char -> bool) (s : pystr) c :
  In c (dropwhile p s) -> In c s.
Proof.
  induction s as [|x s IH]; simpl; auto.
  destruct (p x); simpl; auto.
Qed.

Lemma rstrip_decomp (s : pystr) :
  exists ws, s = rstrip s ++ ws /\ forallb isspace ws = true.
Proof.
  unfold rstrip.
  destruct (dropwhile_decomp isspace (rev s)) as [pre [E F]].
  exists (rev pre); split.
  - rewrite <- rev_app_distr, <- E, rev_involutive; reflexivity.
  - rewrite forallb_forall in *; intros x Hx; apply F, in_rev; exact Hx.
Qed.

Lemma rstrip_last (s s' : pystr) c :
  rstrip s = s' ++ [c] -> isspace c = false.
Proof.
  unfold rstrip; intros E.
  apply (f_equal (@rev char)) in E.
  rewrite rev_involutive, rev_app_distr in E; simpl in E.
  eapply dropwhile_head; eassumption.
Qed.

Lemma strip_length (s : pystr) : length (strip s) <= length s.
Proof.
  unfold strip, rstrip, lstrip.
  rewrite length_rev.
  etransitivity; [apply dropwhile_length|].
  rewrite length_rev; apply dropwhile_length.
Qed.

Lemma strip_incl (s : pystr) c : In c (strip s) -> In c s.
Proof.
  unfold strip, rstrip, lstrip; intros H.
  apply in_rev in H.
  apply dropwhile_incl in H.
  apply in_rev in H.
  eapply dropwhile_incl; eassumption.
Qed.

Lemma strip_stripped (s : pystr) : stripped (strip s).
Proof.
  split; intros c s' E.
  - unfold strip in E.
    destruct (rstrip_decomp (lstrip s)) as [ws [D _]].
    rewrite E in D; simpl in D.
    eapply dropwhile_head; exact D.
  - eapply rstrip_last; exact E.
Qed.

Lemma stripped_strip (s : pystr) : stripped s -> strip s = s.
Proof.
  intros [Hh Ht].
  assert (L : lstrip s = s).
  { destruct s as [|c s']; [reflexivity|].
    unfold lstrip; simpl; rewrite (Hh c s' eq_refl); reflexivity. }
  unfold strip; rewrite L; unfold rstrip.
  destruct (rev s) as [|c r] eqn:R.
  - apply (f_equal (@rev char)) in R; rewrite rev_involutive in R; subst; reflexivity.
  - assert (E : s = rev r ++ [c]).
    { rewrite <- (rev_involutive s), R; reflexivity. }
    simpl; rewrite (Ht c (rev r) E); simpl; symmetry; exact E.
Qed.

(** ** Replacement *)

Lemma in_replace (old : char) (new s : pystr) c :
  In c (replace old new s) -> (In c s /\ c <> old) \/ In c new.
Proof.
  unfold replace; intros H.
  apply in_flat_map in H as [x [Hx Hc]].
  destruct (N.eqb_spec x old) as [->|Hne].
  - right; exact Hc.
  - destruct Hc as [<-|[]]; left; split; assumption.
Qed.

Lemma replace_absent (old : char) (new s : pystr) :
  ~ In old s -> replace old new s = s.
Proof.
  unfold replace; induction s as [|c s IH]; simpl; intros H; [reflexivity|].
  destruct (N.eqb_spec c old) as [->|Hne].
  - exfalso; apply H; left; reflexivity.
  - simpl; f_equal; apply IH; intros Hin; apply H; right; exact Hin.
Qed.

Lemma firstn_incl (n : nat) (s : pystr) c : In c (firstn n s) -> In c s.
Proof.
  revert s; induction n as [|n IH]; intros [|x s]; simpl; try tauto.
  intros [->|H]; auto.
Qed.

(** ** The sanitizer *)

Lemma sanitize_no_forbidden (s : pystr) : no_forbidden (sanitize_filename s).
Proof.
  intros c Hc Hin.
  unfold sanitize_filename in Hin.
  apply strip_incl, firstn_incl in Hin.
  repeat (apply in_replace in Hin as [[Hin ?]|Hin];
          [| simpl in Hin, Hc; clear - Hin Hc;
             repeat (destruct Hin as [<-|Hin]; [vm_compute in Hc; intuition discriminate|]);
             exact Hin]).
  clear Hin; unfold forbidden, In in Hc.
  repeat (destruct Hc as [Hc|Hc]; [symmetry in Hc; contradiction|]).
  exact Hc.
Qed.

Lemma sanitize_length (s : pystr) : length (sanitize_filename s) <= 150.
Proof.
  unfold sanitize_filename.
  etransitivity; [apply strip_length|].
  apply firstn_le_length.
Qed.

Lemma sanitize_stripped (s : pystr) : stripped (sanitize_filename s).
Proof. unfold sanitize_filename; apply strip_stripped. Qed.

Lemma sanitize_fixpoint (y : pystr) :
  no_forbidden y -> length y <= 150 -> stripped y -> sanitize_filename y = y.
Proof.
  intros Hf Hl Hs.
  unfold sanitize_filename.
  repeat (rewrite (@replace_absent _ _ y); [| apply Hf; simpl; tauto]).
  rewrite firstn_all2 by exact Hl.
  apply stripped_strip; exact Hs.
Qed.

(** C8: [sanitize_filename] is total; its result holds none of the
    characters of [forbidden] (slash, backslash, colon, asterisk, question
    mark, double quote, angle brackets, pipe), is at most 150 characters long, and
    neither starts nor ends with whitespace; the empty string gives the
    empty string. *)
Theorem C8_sanitize_contract (s : pystr) :
  (exists t, sanitize_filename s = t) /\
  no_forbidden (sanitize_filename s) /\
  length (sanitize_filename s) <= 150 /\
  stripped (sanitize_filename s) /\
  sanitize_filename [] = [].
Proof.
  split; [eexists; reflexivity|].
  split; [apply sanitize_no_forbidden|].
  split; [apply sanitize_length|].
  split; [apply sanitize_stripped | reflexivity].
Qed.

(** C9: sanitizing twice gives what sanitizing once gives. *)
Theorem C9_sanitize_idempotent (x : pystr) :
  sanitize_filename (sanitize_filename x) = sanitize_filename x.
Proof.
  apply sanitize_fixpoint.
  - apply sanitize_no_forbidden.
  - apply sanitize_length.
  - apply sanitize_stripped.
Qed.

(** ** The artist folder *)

Lemma split_no_sep (sep : char) (p : pystr) :
  ~ In sep p -> split sep p = [p].
Proof.
  induction p as [|c p IH]; simpl; intros H; [reflexivity|].
  destruct (N.eqb_spec c sep) as [->|Hne]; [exfalso; auto|].
  rewrite IH by auto; reflexivity.
Qed.

Lemma split_hd_app (sep : char) (p q : pystr) :
  ~ In sep p -> hd [] (split sep (p ++ sep :: q)) = p.
Proof.
  induction p as [|c p IH]; simpl; intros H.
  - rewrite N.eqb_refl; reflexivity.
  - destruct (N.eqb_spec c sep) as [->|Hne]; [exfalso; auto|].
    specialize (IH (fun Hin => H (or_intror Hin))).
    destruct (split sep (p ++ sep :: q)) as [|l ls]; simpl in *; congruence.
Qed.

Lemma join_cons (sep x : pystr) (l : list pystr) :
  join sep (x :: l) = x \/ exists tl, join sep (x :: l) = x ++ sep ++ tl.
Proof.
  destruct l as [|y l]; simpl; [left; reflexivity|].
  right; eexists; reflexivity.
Qed.

Lemma named_artists_cons (a : artist) (rest : list artist) (n : pystr) :
  artist_name a = Some n -> n <> [] ->
  named_artists (a :: rest) = n :: named_artists rest.
Proof.
  intros Hn Hne; unfold named_artists; simpl; rewrite Hn.
  destruct n; [congruence | reflexivity].
Qed.

Lemma artist_names_first (t : track_item) a rest n :
  tr_artists t = a :: rest -> artist_name a = Some n -> n <> [] ->
  artist_names_of t = n \/
  exists tl, artist_names_of t = n ++ ch "," :: tl.
Proof.
  intros Ha Hn Hne.
  unfold artist_names_of; rewrite Ha, (@named_artists_cons a rest n Hn Hne).
  destruct (join_cons (py ", ") n (named_artists rest)) as [E|[tl E]];
    rewrite E.
  - left; destruct n; [congruence | reflexivity].
  - right; exists (py " " ++ tl).
    destruct n; [congruence | reflexivity].
Qed.

(** C10: the artist folder is the sanitized text before the first comma of
    the joined artist names. When the first artist's name has no comma the
    folder is that name, sanitized; when it has one, the folder is what
    precedes the comma, sanitized. *)
Theorem C10_artist_folder (t : track_item) (a : artist) (rest : list artist)
    (n : pystr) :
  tr_artists t = a :: rest -> artist_name a = Some n -> n <> [] ->
  s_artist_of t =
    sanitize_filename
      (hd [] (split (ch ",") (join (py ", ") (named_artists (tr_artists t)))))
  /\ (~ In (ch ",") n -> s_artist_of t = sanitize_filename n)
  /\ (forall p q, n = p ++ ch "," :: q -> ~ In (ch ",") p ->
      s_artist_of t = sanitize_filename p).
Proof.
  intros Ha Hn Hne.
  pose proof (artist_names_first t Ha Hn Hne) as Hnames.
  split; [|split].
  - unfold s_artist_of, artist_names_of.
    destruct (join (py ", ") (named_artists (tr_artists t))) as [|c j] eqn:J;
      [|reflexivity].
    exfalso.
    unfold artist_names_of in Hnames; rewrite J in Hnames; simpl in Hnames.
    rewrite Ha, (@named_artists_cons a rest n Hn Hne) in J.
    destruct (join_cons (py ", ") n (named_artists rest)) as [E|[tl E]];
      rewrite E in J; destruct n; congruence || discriminate.
  - intros Hc; unfold s_artist_of.
    destruct Hnames as [E|[tl E]]; rewrite E.
    + rewrite split_no_sep by exact Hc; reflexivity.
    + rewrite split_hd_app by exact Hc; reflexivity.
  - intros p q -> Hp; unfold s_artist_of.
    destruct Hnames as [E|[tl E]]; rewrite E.
    + rewrite split_hd_app by exact Hp; reflexivity.
    + rewrite <- app_assoc; simpl.
      rewrite split_hd_app by exact Hp; reflexivity.
Qed.

Lemma C10_artist_folder_witness :
  s_artist_of Sample.comma_track = py "Tyler" /\
  s_artist_of Sample.song_a = py "Band".
Proof.
  destruct (@C10_artist_folder Sample.comma_track
              {| artist_name := Some (py "Tyler, The Creator") |}
              [ {| artist_name := Some (py "Guest") |} ]
              (py "Tyler, The Creator") eq_refl eq_refl)
    as [_ [_ H1]]; [discriminate|].
  destruct (@C10_artist_folder Sample.song_a
              {| artist_name := Some (py "Band") |} [] (py "Band")
              eq_refl eq_refl)
    as [_ [H2 _]]; [discriminate|].
  split.
  - exact (H1 (py "Tyler") (py " The Creator") eq_refl
              ltac:(vm_compute; intuition discriminate)).
  - exact (H2 ltac:(vm_compute; intuition discriminate)).
Defined.

(** ** The filename stem *)




(** ** Pagination *)

Lemma count_from_length (next : cursor) :
  length (entries_from next) = count_from next.
Proof.
  induction next using cursor_page_ind
    with (P := fun p => length (all_entries p) = total_entries p);
    simpl; try reflexivity.
  - rewrite length_app; congruence.
  - exact IHnext.
Qed.

Lemma total_entries_length (p : page) :
  length (all_entries p) = total_entries p.
Proof.
  destruct p as [items next]; simpl.
  rewrite length_app, count_from_length; reflexivity.
Qed.

Lemma follow_pages_served (next : cursor) :
  served next ->
  forall acc s, exists s',
    follow_pages next acc s = (Ret (acc ++ entries_from next), s').
Proof.
  induction next using cursor_page_ind
    with (P := fun p => served (NextPage p) ->
                 forall acc s, exists s',
                   follow_pages (NextPage p) acc s
                   = (Ret (acc ++ entries_from (NextPage p)), s')).
  - intros H acc s; simpl in *.
    destruct (IHnext H (match items with [] => acc | _ :: _ => acc ++ items end)
                (log EvNext s)) as [s' E].
    exists s'; rewrite E.
    destruct items; simpl; [reflexivity|].
    rewrite <- app_assoc; reflexivity.
  - intros _ acc s; exists s; simpl; rewrite app_nil_r; reflexivity.
  - exact IHnext.
  - intros [].
  - intros [].
Qed.

(** C5: for an album reference whose listing the provider serves page by
    page, the tracks gathered are all the entries of all the pages in page
    order, and their number is the sum of the pages' sizes. *)
Theorem C5_album_pagination (w : world) (url name : pystr) (s : state)
    (first : page) :
  contains (py "/track/") url = false ->
  contains (py "/album/") url = true ->
  sp_album w (trace s) url = Ret (Some name) ->
  sp_album_tracks w (trace s ++ [EvAlbum url]) url = Ret (Some first) ->
  served (NextPage first) ->
  exists s',
    tracks_to_download w url s =
      (Ret (match all_entries first with [] => None | l => Some l end), s')
    /\ length (all_entries first) = total_entries first.
Proof.
  intros Ht Ha Halbum Htracks Hs.
  destruct first as [items next]; simpl in Hs.
  destruct (follow_pages_served next Hs items
              (log (EvAlbumTracks url) (log (EvAlbum url) s))) as [s' E].
  exists s'; split; [|apply total_entries_length].
  unfold tracks_to_download, bind, call_album, call_album_tracks.
  rewrite Ht, Ha, Halbum; simpl.
  rewrite Htracks, E; simpl.
  destruct (items ++ entries_from next); reflexivity.
Qed.

Lemma C5_album_pagination_witness :
  exists s',
    tracks_to_download Sample.paged_world Sample.album_url Sample.start =
      (Ret (Some [Sample.intro; Sample.song_a; Sample.song_b]), s')
    /\ length [Sample.intro; Sample.song_a; Sample.song_b] = 2 + 1.
Proof.
  exact (@C5_album_pagination Sample.paged_world Sample.album_url (py "Album")
           Sample.start Sample.two_pages
           eq_refl eq_refl eq_refl eq_refl I).
Defined.

(** ** The last line of the tool's output *)

Lemma truthy_nonempty (x : pystr) : truthy x = true <-> x <> [].
Proof. destruct x; simpl; split; congruence. Qed.

Lemma truthy_empty (x : pystr) : truthy x = false <-> x = [].
Proof. destruct x; simpl; split; congruence. Qed.

Lemma split_nonempty (sep : char) (s : pystr) : split sep s <> [].
Proof.
  destruct s as [|c s]; simpl; [discriminate|].
  destruct (N.eqb c sep); [discriminate|].
  destruct (split sep s); discriminate.
Qed.

Lemma split_snoc (sep : char) (s : pystr) (c : char) :
  split sep (s ++ [c]) =
    if N.eqb c sep then split sep s ++ [[]]
    else removelast (split sep s) ++ [last (split sep s) [] ++ [c]].
Proof.
  induction s as [|x s IH]; simpl.
  - destruct (N.eqb c sep); reflexivity.
  - rewrite IH; clear IH.
    pose proof (split_nonempty sep s) as Hne.
    destruct (split sep s) as [|l ls]; [congruence|]; clear Hne.
    destruct (N.eqb x sep), (N.eqb c sep); try reflexivity;
      destruct ls; reflexivity.
Qed.

Lemma dropwhile_app (p : char -> bool) (l m : pystr) :
  dropwhile p (l ++ m) =
    match dropwhile p l with
    | [] => dropwhile p m
    | _ :: _ => dropwhile p l ++ m
    end.
Proof.
  induction l as [|c l IH]; simpl; [destruct (dropwhile p m); reflexivity|].
  destruct (p c); [exact IH | reflexivity].
Qed.

Lemma strip_cons_space (c : char) (l : pystr) :
  isspace c = true -> strip (c :: l) = strip l.
Proof. intros H; unfold strip, lstrip; simpl; rewrite H; reflexivity. Qed.

Lemma rstrip_snoc_space (c : char) (l : pystr) :
  isspace c = true -> rstrip (l ++ [c]) = rstrip l.
Proof.
  intros H; unfold rstrip; rewrite rev_app_distr; simpl; rewrite H; reflexivity.
Qed.

Lemma strip_snoc_space (c : char) (l : pystr) :
  isspace c = true -> strip (l ++ [c]) = strip l.
Proof.
  intros H; unfold strip, lstrip.
  rewrite dropwhile_app; simpl; rewrite H.
  destruct (dropwhile isspace l) as [|x d]; [reflexivity|].
  apply rstrip_snoc_space; exact H.
Qed.

Lemma keep_last_cons_space (a : option pystr) (c : char) (l : pystr) :
  isspace c = true -> keep_last a (c :: l) = keep_last a l.
Proof. intros H; unfold keep_last; rewrite strip_cons_space by exact H; reflexivity. Qed.

Lemma keep_last_snoc_space (a : option pystr) (c : char) (l : pystr) :
  isspace c = true -> keep_last a (l ++ [c]) = keep_last a l.
Proof. intros H; unfold keep_last; rewrite strip_snoc_space by exact H; reflexivity. Qed.

Lemma scan_leading_space (c : char) (s : pystr) (a : option pystr) :
  isspace c = true ->
  fold_left keep_last (split NEWLINE (c :: s)) a
  = fold_left keep_last (split NEWLINE s) a.
Proof.
  intros H; simpl.
  destruct (N.eqb c NEWLINE); [reflexivity|].
  pose proof (split_nonempty NEWLINE s) as Hne.
  destruct (split NEWLINE s) as [|l ls]; [congruence|]; simpl.
  rewrite keep_last_cons_space by exact H; reflexivity.
Qed.

Lemma scan_trailing_space (c : char) (s : pystr) (a : option pystr) :
  isspace c = true ->
  fold_left keep_last (split NEWLINE (s ++ [c])) a
  = fold_left keep_last (split NEWLINE s) a.
Proof.
  intros H; rewrite split_snoc.
  destruct (N.eqb c NEWLINE).
  - rewrite fold_left_app; reflexivity.
  - rewrite fold_left_app; simpl.
    rewrite keep_last_snoc_space by exact H.
    rewrite (app_removelast_last [] (split_nonempty NEWLINE s)) at 3.
    rewrite fold_left_app; reflexivity.
Qed.

Lemma scan_leading (ws s : pystr) (a : option pystr) :
  forallb isspace ws = true ->
  fold_left keep_last (split NEWLINE (ws ++ s)) a
  = fold_left keep_last (split NEWLINE s) a.
Proof.
  induction ws as [|c ws IH]; intros H; [reflexivity|].
  simpl in H; apply andb_true_iff in H as [Hc Hws].
  change ((c :: ws) ++ s) with (c :: (ws ++ s)).
  rewrite scan_leading_space by exact Hc; auto.
Qed.

Lemma scan_trailing (ws s : pystr) (a : option pystr) :
  forallb isspace ws = true ->
  fold_left keep_last (split NEWLINE (s ++ ws)) a
  = fold_left keep_last (split NEWLINE s) a.
Proof.
  induction ws as [|c ws IH] using rev_ind; intros H.
  - rewrite app_nil_r; reflexivity.
  - rewrite forallb_app in H; simpl in H.
    apply andb_true_iff in H as [Hws Hc].
    rewrite andb_true_r in Hc.
    rewrite app_assoc, scan_trailing_space by exact Hc; auto.
Qed.

(** The outer [strip()] of the source changes nothing in what the loop
    finds. *)
Lemma final_filepath_unstripped (out : pystr) :
  final_filepath_of out = fold_left keep_last (split NEWLINE out) None.
Proof.
  unfold final_filepath_of.
  destruct (dropwhile_decomp isspace out) as [pre [E Hpre]].
  destruct (rstrip_decomp (lstrip out)) as [ws [E' Hws]].
  change (dropwhile isspace out) with (lstrip out) in E.
  unfold strip.
  rewrite <- (scan_trailing ws (rstrip (lstrip out)) None Hws), <- E'.
  rewrite <- (scan_leading pre (lstrip out) None Hpre), <- E.
  reflexivity.
Qed.

Lemma scan_spec (lines : list pystr) (a : option pystr) (p : pystr) :
  fold_left keep_last lines a = Some p <->
  (exists before l after,
      lines = before ++ l :: after /\
      Forall (fun x => strip x = []) after /\
      strip l <> [] /\ p = strip l)
  \/ (Forall (fun x => strip x = []) lines /\ a = Some p).
Proof.
  induction lines as [|x lines IH] using rev_ind.
  - simpl; split.
    + intros ->; right; split; [constructor | reflexivity].
    + intros [[before [l [after [E _]]]]|[_ E]]; [|exact E].
      destruct before; discriminate.
  - rewrite fold_left_app; simpl; unfold keep_last at 1.
    destruct (truthy (strip x)) eqn:T.
    + apply truthy_nonempty in T.
      split.
      * intros E; injection E as <-.
        left; exists lines, x, []; repeat split; auto.
      * intros [[before [l [after [E [Hb [Hl ->]]]]]]|[Hb _]].
        -- destruct after as [|y after] using rev_ind.
           ++ apply app_inj_tail in E as [_ ->]; reflexivity.
           ++ clear IHafter.
              change (before ++ l :: after ++ [y])
                with (before ++ (l :: after) ++ [y]) in E.
              rewrite app_assoc in E.
              apply app_inj_tail in E as [_ ->].
              apply Forall_app in Hb as [_ Hy].
              inversion Hy; subst; contradiction.
        -- apply Forall_app in Hb as [_ Hy].
           inversion Hy; subst; contradiction.
    + apply truthy_empty in T.
      rewrite IH; clear IH; split.
      * intros [[before [l [after [E [Hb [Hl ->]]]]]]|[Hb ->]].
        -- left; exists before, l, (after ++ [x]); repeat split; auto.
           ++ rewrite E, <- app_assoc; reflexivity.
           ++ apply Forall_app; split; [exact Hb | repeat constructor; exact T].
        -- right; split; [|reflexivity].
           apply Forall_app; split; [exact Hb | repeat constructor; exact T].
      * intros [[before [l [after [E [Hb [Hl ->]]]]]]|[Hb ->]].
        -- left.
           destruct after as [|y after] using rev_ind.
           ++ apply app_inj_tail in E as [_ ->]; contradiction.
           ++ clear IHafter.
              change (before ++ l :: after ++ [y])
                with (before ++ (l :: after) ++ [y]) in E.
              rewrite app_assoc in E.
              apply app_inj_tail in E as [-> ->].
              apply Forall_app in Hb as [Hb _].
              exists before, l, after; repeat split; auto.
        -- right; apply Forall_app in Hb as [Hb _]; split; auto.
Qed.

Lemma final_filepath_spec (out p : pystr) :
  final_filepath_of out = Some p <-> last_nonblank_line out p.
Proof.
  rewrite final_filepath_unstripped, scan_spec; unfold last_nonblank_line.
  split; [|intros H; left; exact H].
  intros [H|[_ H]]; [exact H | discriminate].
Qed.

(** ** The download, real mode *)

(** C6: when the directory can be made and the download tool exits with
    status 0, the call returns, and it returns a path exactly when that path
    is the last non-blank line of the tool's stdout, stripped, and exists on
    disk once the tool has run. *)
Theorem C6_real_mode_exit_zero (w : world)
    (youtube_url base artist album stem : pystr) (s : state)
    (result : completed) (disk : filesys) :
  let dir := path_join base [py "Music"; artist; album] in
  let s1 := log (EvMakedirs dir) (set_fs (add_dir dir (fs s)) s) in
  makedirs_error w (trace s) dir (fs s) = None ->
  run_process w (trace s1)
    (yt_dlp_command (path_join dir [stem ++ py ".%(ext)s"]) youtube_url)
    (fs s1) = Ret (result, disk) ->
  returncode result = 0%Z ->
  exists r,
    fst (download_youtube_track_for_spotify w youtube_url base artist album
           stem false s) = Ret r /\
    forall p, r = Some p <->
              last_nonblank_line (stdout result) p /\ path_exists disk p = true.
Proof.
  intros dir s1 Hmk Hrun Hcode.
  unfold download_youtube_track_for_spotify, bind, try_except, makedirs,
    subprocess_run, get_fs, ret.
  fold dir; rewrite Hmk; fold s1; rewrite Hrun, Hcode; simpl.
  destruct (final_filepath_of (stdout result)) as [q|] eqn:F.
  - pose proof (proj1 (final_filepath_spec (stdout result) q) F) as Hq.
    assert (Tq : truthy q = true).
    { destruct Hq as [b [l [a [_ [_ [Hl ->]]]]]]; apply truthy_nonempty; exact Hl. }
    rewrite Tq; simpl.
    destruct (path_exists disk q) eqn:X; simpl; eexists; (split; [reflexivity|]).
    + intros p; split.
      * intros E; injection E as <-; split; assumption.
      * intros [Hp _]; apply final_filepath_spec in Hp; congruence.
    + intros p; split; [discriminate|].
      intros [Hp Hx]; apply final_filepath_spec in Hp.
      rewrite F in Hp; injection Hp as <-; congruence.
  - eexists; split; [reflexivity|].
    intros p; split; [discriminate|].
    intros [Hp _]; apply final_filepath_spec in Hp; congruence.
Qed.

Lemma C6_real_mode_exit_zero_witness :
  exists r,
    fst (download_youtube_track_for_spotify Sample.real_world Sample.found_url
           (py "/root") (py "Band") (py "Album") (py "01 - Song A") false
           Sample.start) = Ret r /\
    forall p, r = Some p <->
              last_nonblank_line (py "/out/a.mp3" ++ [NEWLINE; NEWLINE]) p /\
              path_exists (put_file (py "/out/a.mp3") (py "audio")
                             (add_dir (py "/root/Music/Band/Album") empty_fs))
                          p = true.
Proof.
  exact (@C6_real_mode_exit_zero Sample.real_world Sample.found_url
           (py "/root") (py "Band") (py "Album") (py "01 - Song A")
           Sample.start
           (Sample.done 0 (py "/out/a.mp3" ++ [NEWLINE; NEWLINE]))
           (put_file (py "/out/a.mp3") (py "audio")
              (add_dir (py "/root/Music/Band/Album") empty_fs))
           eq_refl eq_refl eq_refl).
Defined.

(** ** The download, simulate mode *)

(** In simulate mode, when the directory can be made and the write goes
    through, the placeholder holds the stem and the URL and its path is
    returned. *)
Lemma simulate_write_succeeds (w : world)
    (youtube_url base artist album stem : pystr) (s : state) :
  let dir := path_join base [py "Music"; artist; album] in
  let path := path_join dir [stem ++ py ".mp3"] in
  let s1 := log (EvMakedirs dir) (set_fs (add_dir dir (fs s)) s) in
  makedirs_error w (trace s) dir (fs s) = None ->
  write_error w (trace s1) path (fs s1) = None ->
  let r := download_youtube_track_for_spotify w youtube_url base artist album
             stem true s in
  fst r = Ret (Some path) /\
  file_content (fs (snd r)) path = Some (dummy_content stem youtube_url).
Proof.
  intros dir path s1 Hmk Hw.
  unfold download_youtube_track_for_spotify, bind, try_except, makedirs,
    write_file, ret.
  fold dir; rewrite Hmk; fold s1; fold path; rewrite Hw; simpl.
  split; [reflexivity|].
  unfold file_content; simpl.
  assert (E : pystr_eqb path path = true).
  { clear; induction path as [|c p IH]; simpl; [reflexivity|].
    rewrite N.eqb_refl; exact IH. }
  rewrite E; reflexivity.
Qed.

(** When the write is refused with an [OSError], the same path is returned
    all the same, and nothing is written. *)
Lemma simulate_write_fails (w : world)
    (youtube_url base artist album stem : pystr) (s : state) (e : exn) :
  let dir := path_join base [py "Music"; artist; album] in
  let path := path_join dir [stem ++ py ".mp3"] in
  let s1 := log (EvMakedirs dir) (set_fs (add_dir dir (fs s)) s) in
  makedirs_error w (trace s) dir (fs s) = None ->
  write_error w (trace s1) path (fs s1) = Some e ->
  is_OSError e = true ->
  download_youtube_track_for_spotify w youtube_url base artist album stem
    true s = (Ret (Some path), log (EvOpen path) s1).
Proof.
  intros dir path s1 Hmk Hw He.
  unfold download_youtube_track_for_spotify, bind, try_except, makedirs,
    write_file, ret.
  fold dir; rewrite Hmk; fold s1; fold path; rewrite Hw, He; reflexivity.
Qed.

(** C4, at the failing input: every write is refused, yet the simulated
    download returns the path of the placeholder, which is not on disk. *)
Theorem C4_simulate_reports_path_of_unwritten_file :
  let r := download_youtube_track_for_spotify Sample.nowrite_world
             Sample.found_url (py "/root") (py "Band") (py "Album")
             (py "01 - Intro") true Sample.start in
  fst r = Ret (Some (py "/root/Music/Band/Album/01 - Intro.mp3")) /\
  path_exists (fs (snd r)) (py "/root/Music/Band/Album/01 - Intro.mp3") = false.
Proof. vm_compute; split; reflexivity. Qed.

(** ** The loop *)

Lemma process_tracks_cons (w : world) (base : pystr) (sim : bool)
    (item : track_item) (rest : list track_item) (s : state) :
  process_tracks w base sim (item :: rest) s =
    match process_track w base sim item s with
    | (Ret o, s') =>
        let '(os, e, s'') := process_tracks w base sim rest s' in
        (o :: os, e, s'')
    | (Raise e, s') => ([], Some e, s')
    end.
Proof. reflexivity. Qed.

(** The turns taken without an exception can be set apart from the rest of
    the loop. *)
Lemma process_tracks_app (w : world) (base : pystr) (sim : bool)
    (before : list track_item) (s s1 : state) (outs : list item_outcome) :
  process_tracks w base sim before s = (outs, None, s1) ->
  length outs = length before /\
  forall rest,
    process_tracks w base sim (before ++ rest) s =
      (let '(outs2, e2, s2) := process_tracks w base sim rest s1 in
       (outs ++ outs2, e2, s2)).
Proof.
  revert s outs; induction before as [|item before IH]; intros s outs H.
  - simpl in H; inversion H; subst; split; [reflexivity|].
    intros rest; simpl.
    destruct (process_tracks w base sim rest s1) as [[o e] s2]; reflexivity.
  - rewrite process_tracks_cons in H.
    destruct (process_track w base sim item s) as [[o|x] s'] eqn:E;
      [|discriminate H].
    destruct (process_tracks w base sim before s') as [[os e] s''] eqn:R.
    inversion H; subst.
    destruct (IH _ _ R) as [Hlen Happ].
    split; [simpl; congruence|].
    intros rest; rewrite <- app_comm_cons, process_tracks_cons, E, Happ.
    destruct (process_tracks w base sim rest s1) as [[o2 e2] s2]; reflexivity.
Qed.

(** C3, as the code has it. Let the loop have reached [item], the turns for
    the items [before] it having ended as [outs] without an exception. Each
    failure the body tests for ends the turn of [item] with an outcome and
    the loop goes on with the items [after] it: an item without id, details
    that the catalog answers with nothing, a search that exits with a
    non-zero status or prints nothing, a download that returns nothing (or
    a path). Each exception ends the loop at [item], and no turn is taken
    for the items [after] it: [sp.track] raising, the search process
    raising, [os.makedirs] raising, the download raising. *)
Theorem C3_outcomes_isolated_exceptions_end_the_loop (w : world)
    (base : pystr) (sim : bool) (before : list track_item) (item : track_item)
    (after : list track_item) (s s1 : state) (outs : list item_outcome) :
  process_tracks w base sim before s = (outs, None, s1) ->
  let goes_on := fun (o : item_outcome) (s' : state) =>
    process_tracks w base sim (before ++ item :: after) s =
      (let '(outs', e, s'') := process_tracks w base sim after s' in
       (outs ++ o :: outs', e, s'')) in
  let ends := fun (x : exn) (s' : state) =>
    process_tracks w base sim (before ++ item :: after) s
      = (outs, Some x, s') in
  length outs = length before /\
  (tr_album item = AlbumAbsent -> truthy_opt (tr_id item) = false ->
   goes_on SkippedNoId s1) /\
  (forall id,
     tr_album item = AlbumAbsent -> tr_id item = Some id -> truthy id = true ->
     (sp_track w (trace s1) id = Ret None ->
      goes_on SkippedNoDetails (log (EvTrack id) s1)) /\
     (forall x, sp_track w (trace s1) id = Raise x ->
                ends x (log (EvTrack id) s1))) /\
  (forall t s2,
     full_track w item s1 = (Ret (inl t), s2) ->
     let argv := get_yt_url_command (search_query_of t) in
     (forall x, run_process w (trace s2) argv (fs s2) = Raise x ->
                ends x (log (EvRun argv) s2)) /\
     (forall yt_url_result disk,
        run_process w (trace s2) argv (fs s2) = Ret (yt_url_result, disk) ->
        let s3 := log (EvRun argv) (set_fs disk s2) in
        let dir := path_join base [py "Music"; s_artist_of t; s_album_of t] in
        let url := hd [] (split NEWLINE (strip (stdout yt_url_result))) in
        (returncode yt_url_result <> 0%Z \/ strip (stdout yt_url_result) = [] ->
         goes_on LocatorMiss s3) /\
        (returncode yt_url_result = 0%Z ->
         strip (stdout yt_url_result) <> [] ->
         (forall x, makedirs_error w (trace s3) dir (fs s3) = Some x ->
                    ends x (log (EvMakedirs dir) s3)) /\
         (makedirs_error w (trace s3) dir (fs s3) = None ->
          forall r s5,
            download_youtube_track_for_spotify w url base (s_artist_of t)
              (s_album_of t) (filename_stem_of t) sim
              (log (EvMakedirs dir) (set_fs (add_dir dir (fs s3)) s3))
            = (r, s5) ->
            match r with
            | Ret path => goes_on (Fetched path) s5
            | Raise x => ends x s5
            end)))).
Proof.
  intros Hb goes_on ends.
  destruct (@process_tracks_app w base sim before s s1 outs Hb)
    as [Hlen Happ].
  assert (G : forall o s', process_track w base sim item s1 = (Ret o, s') ->
                           goes_on o s').
  { intros o s' E; unfold goes_on.
    rewrite Happ, process_tracks_cons, E.
    destruct (process_tracks w base sim after s') as [[o2 e2] s2].
    reflexivity. }
  assert (X : forall x s', process_track w base sim item s1 = (Raise x, s') ->
                           ends x s').
  { intros x s' E; unfold ends.
    rewrite Happ, process_tracks_cons, E, app_nil_r; reflexivity. }
  split; [exact Hlen|]; split; [|split].
  - intros Ha Hid; apply G.
    unfold process_track, bind, full_track; rewrite Ha.
    destruct (tr_id item) as [id|]; [|reflexivity].
    simpl in Hid; rewrite Hid; reflexivity.
  - intros id Ha Hid Ht; split.
    + intros Hn; apply G.
      unfold process_track, bind, full_track; rewrite Ha, Hid, Ht.
      unfold bind, call_track; rewrite Hn; reflexivity.
    + intros x Hx; apply X.
      unfold process_track, bind, full_track; rewrite Ha, Hid, Ht.
      unfold bind, call_track; rewrite Hx; reflexivity.
  - intros t s2 Hfull argv; split.
    + intros x Hx; apply X.
      unfold process_track, bind; rewrite Hfull.
      unfold locate_and_download, bind, subprocess_run.
      fold argv; rewrite Hx; reflexivity.
    + intros c disk Hrun s3 dir url; split.
      * intros Hmiss; apply G.
        unfold process_track, bind; rewrite Hfull.
        unfold locate_and_download, bind, subprocess_run.
        fold argv; rewrite Hrun; fold s3.
        destruct Hmiss as [Hc|Ho].
        -- apply Z.eqb_neq in Hc; rewrite Hc; reflexivity.
        -- rewrite Ho, andb_false_r; reflexivity.
      * intros Hc Ho.
        assert (Hfound : ((returncode c =? 0)%Z
                          && truthy (strip (stdout c))) = true).
        { rewrite Hc; simpl.
          destruct (strip (stdout c)); [contradiction | reflexivity]. }
        assert (P : process_track w base sim item s1 =
                    (makedirs w dir ;;;
                     (r <- download_youtube_track_for_spotify w url base
                             (s_artist_of t) (s_album_of t)
                             (filename_stem_of t) sim ;;
                      ret (Fetched r))) s3).
        { unfold process_track; unfold bind at 1; rewrite Hfull.
          unfold locate_and_download; unfold bind at 1.
          unfold subprocess_run; fold argv; rewrite Hrun; fold s3.
          rewrite Hfound; reflexivity. }
        split.
        -- intros x Hx; apply X; rewrite P.
           unfold bind at 1; unfold makedirs; rewrite Hx; reflexivity.
        -- intros Hmk r s5 Hd.
           assert (Q : process_track w base sim item s1 =
                       match r with
                       | Ret path => (Ret (Fetched path), s5)
                       | Raise x => (Raise x, s5)
                       end).
           { rewrite P; unfold bind at 1; unfold makedirs; rewrite Hmk.
             unfold bind; rewrite Hd; destruct r; reflexivity. }
           destruct r as [path|x]; [apply G | apply X]; exact Q.
Qed.

(** On a batch with an item without id, an item without details, a search
    without result and two failed downloads, the loop takes all five
    turns. *)
Lemma C3_outcomes_isolated_exceptions_end_the_loop_witness :
  fst (process_tracks Sample7.mixed_world (py "/root") false Sample7.batch
         Sample.start)
  = ([SkippedNoId; SkippedNoDetails; LocatorMiss; Fetched None; Fetched None],
     None).
Proof.
  pose (before := [Sample7.anonymous; Sample.thin; Sample.song_a]).
  pose (r := process_tracks Sample7.mixed_world (py "/root") false before
               Sample.start).
  destruct (@C3_outcomes_isolated_exceptions_end_the_loop
              Sample7.mixed_world (py "/root") false before Sample.intro
              [Sample.song_b] Sample.start (snd r) (fst (fst r))
              ltac:(vm_compute; reflexivity)) as [_ [_ [_ H]]].
  destruct (H Sample.intro (snd r) ltac:(vm_compute; reflexivity)) as [_ H1].
  destruct (H1 (Sample.done 0 (Sample.found_url ++ [NEWLINE])) (fs (snd r))
              ltac:(vm_compute; reflexivity)) as [_ H2].
  destruct (H2 eq_refl ltac:(vm_compute; discriminate)) as [_ H3].
  pose proof (H3 ltac:(vm_compute; reflexivity) (Ret None)) as H4.
  change Sample7.batch with (before ++ Sample.intro :: [Sample.song_b]).
  erewrite H4; vm_compute; reflexivity.
Defined.

(** In a calm world the download returns, whatever the tool does. *)
Lemma download_returns (w : world)
    (youtube_url base artist album stem : pystr) (sim : bool) (s : state) :
  calm w ->
  exists r s',
    download_youtube_track_for_spotify w youtube_url base artist album stem
      sim s = (Ret r, s').
Proof.
  intros [_ [_ [Hmk Hwr]]].
  unfold download_youtube_track_for_spotify, bind, try_except, makedirs,
    write_file, subprocess_run, get_fs, ret, raise.
  rewrite Hmk.
  destruct sim.
  - destruct (write_error w _ _ _) as [e|] eqn:W.
    + rewrite (Hwr _ _ _ _ W); eexists; eexists; reflexivity.
    + eexists; eexists; reflexivity.
  - destruct (run_process w _ _ _) as [[c f']|e].
    + destruct (returncode c =? 0)%Z; [|eexists; eexists; reflexivity].
      destruct (final_filepath_of (stdout c)) as [q|];
        [|eexists; eexists; reflexivity].
      simpl; destruct (truthy q && path_exists f' q);
        eexists; eexists; reflexivity.
    + eexists; eexists; reflexivity.
Qed.

(** In a calm world every turn of the loop ends with an outcome. *)
Lemma process_track_returns (w : world) (base : pystr) (sim : bool)
    (item : track_item) (s : state) :
  calm w -> exists o s', process_track w base sim item s = (Ret o, s').
Proof.
  intros Hcalm.
  assert (L : forall t s0, exists o s',
             locate_and_download w base sim t s0 = (Ret o, s')).
  { intros t s0.
    pose proof Hcalm as [_ [Hrun [Hmk _]]].
    unfold locate_and_download, bind, subprocess_run.
    destruct (Hrun (trace s0) (search_query_of t) (fs s0)) as [[c f'] ->].
    destruct ((returncode c =? 0)%Z && truthy (strip (stdout c)));
      [|eexists; eexists; reflexivity].
    unfold makedirs at 1; rewrite Hmk.
    match goal with
    | |- context [download_youtube_track_for_spotify w ?u ?b ?a ?al ?st ?m ?x] =>
        destruct (@download_returns w u b a al st m x Hcalm) as [r [s' E]];
        rewrite E
    end.
    eexists; eexists; reflexivity. }
  unfold process_track, bind, full_track, call_track, ret.
  destruct (tr_album item); try apply L.
  destruct (tr_id item) as [id|]; [|eexists; eexists; reflexivity].
  destruct (truthy id); [|eexists; eexists; reflexivity].
  destruct Hcalm as [Htr _].
  unfold bind; cbv beta.
  destruct (Htr (trace s) id) as [[t|] ->]; [apply L|].
  eexists; eexists; reflexivity.
Qed.

(** Failure isolation where nothing raises: the loop takes a turn for every
    item, whatever the outcomes. *)
Lemma calm_loop_complete (w : world) (base : pystr) (sim : bool)
    (items : list track_item) (s : state) :
  calm w ->
  exists outs s',
    process_tracks w base sim items s = (outs, None, s') /\
    length outs = length items.
Proof.
  intros Hcalm; revert s; induction items as [|item items IH]; intros s.
  - exists [], s; split; reflexivity.
  - rewrite process_tracks_cons.
    destruct (process_track_returns base sim item s Hcalm) as [o [s1 ->]].
    destruct (IH s1) as [outs [s' [-> Hlen]]].
    exists (o :: outs), s'; split; [reflexivity | simpl; congruence].
Qed.

Lemma miss_world_calm : calm Sample.miss_world.
Proof.
  repeat split.
  - intros h ref; eexists; reflexivity.
  - intros h q f; eexists; reflexivity.
  - intros h p f e H; discriminate H.
Qed.

(** The specification's scenario: the second of three searches finds
    nothing, and the first and third items are still downloaded. *)
Example failure_isolation_scenario :
  fst (process_tracks Sample.miss_world (py "/root") true
         [Sample.intro; Sample.song_a; Sample.song_b] Sample.start)
  = ([Fetched (Some (py "/root/Music/Band/Album/01 - Intro.mp3"));
      LocatorMiss;
      Fetched (Some (py "/root/Music/Band/Album/02 - Song B.mp3"))], None).
Proof. reflexivity. Qed.

Example failure_isolation_length :
  exists outs s',
    process_tracks Sample.miss_world (py "/root") true
      [Sample.intro; Sample.song_a; Sample.song_b] Sample.start
    = (outs, None, s') /\ length outs = 3.
Proof. apply calm_loop_complete, miss_world_calm. Qed.

(** C3 fails as stated: the catalog refuses the details of the first item,
    the exception ends the loop, and no turn is taken for the second item,
    whose search is never run. *)
Lemma C3_counterexample :
  process_tracks Sample.flaky_world (py "/root") true
    [Sample.thin; Sample.song_a] Sample.start
  = ([], Some SpotifyException,
     {| fs := empty_fs; trace := [EvTrack (py "t1")] |}) /\
  ~ (forall w base sim items s,
        length (fst (fst (process_tracks w base sim items s))) = length items).
Proof.
  split; [reflexivity|].
  intros H.
  specialize (H Sample.flaky_world (py "/root") true
                [Sample.thin; Sample.song_a] Sample.start).
  vm_compute in H; discriminate.
Qed.

(** ** What the caller receives *)

(** C1, as the code has it: whatever the reference and whatever happens to
    the items, the caller receives [None]. *)
Theorem C1_caller_receives_None (w : world) (base : pystr) (sim : bool)
    (spotify_url : pystr) (ffmpeg_available : bool) (s : state) :
  fst (process_spotify_link w base sim spotify_url ffmpeg_available s) = None.
Proof.
  unfold process_spotify_link.
  destruct (negb (truthy_opt (client_id w) && truthy_opt (client_secret w)));
    [reflexivity|].
  destruct (negb (spotipy_installed w)); [reflexivity|].
  destruct (tracks_to_download w spotify_url s) as [[[tracks|]|x] s'];
    try reflexivity.
  destruct (process_tracks w base sim tracks s') as [[outs e] s''].
  reflexivity.
Qed.

(** C1 fails as stated: on the scenario album the loop takes three turns,
    each ending with a file written, and the caller receives no report. *)
Lemma C1_counterexample :
  length (fst (fst (process_tracks Sample.scenario_world (py "/root") true
                      [Sample.intro; Sample.song_a; Sample.song_b]
                      Sample.start))) = 3 /\
  ~ (exists report,
        fst (process_spotify_link Sample.scenario_world (py "/root") true
               Sample.album_url true Sample.start) = Some report).
Proof.
  split; [reflexivity|].
  intros [report H]; vm_compute in H; discriminate.
Qed.

(** ** A search without result *)

Lemma fetch_events_app (a b : list event) :
  fetch_events (a ++ b) = fetch_events a ++ fetch_events b.
Proof. unfold fetch_events; apply filter_app. Qed.

(** Every call of the download starts with a directory creation. *)
Lemma download_leaves_fetch_event (w : world)
    (youtube_url base artist album stem : pystr) (sim : bool) (s : state) :
  exists more,
    trace (snd (download_youtube_track_for_spotify w youtube_url base artist
                  album stem sim s))
    = trace s
      ++ EvMakedirs (path_join base [py "Music"; artist; album]) :: more.
Proof.
  unfold download_youtube_track_for_spotify, bind, try_except, makedirs,
    write_file, subprocess_run, get_fs, ret, raise.
  destruct (makedirs_error w _ _ _); simpl; [exists []; reflexivity|].
  destruct sim.
  - destruct (write_error w _ _ _) as [e|]; simpl.
    + destruct (is_OSError e); simpl; eexists; rewrite <- app_assoc; reflexivity.
    + eexists; rewrite <- app_assoc; reflexivity.
  - destruct (run_process w _ _ _) as [[c f']|e]; simpl.
    + destruct (returncode c =? 0)%Z; simpl.
      * destruct (final_filepath_of (stdout c)) as [q|]; simpl.
        -- destruct (truthy q && path_exists f' q); simpl;
             eexists; rewrite <- app_assoc; reflexivity.
        -- eexists; rewrite <- app_assoc; reflexivity.
      * eexists; rewrite <- app_assoc; reflexivity.
    + eexists; rewrite <- app_assoc; reflexivity.
Qed.

(** So every call of the download is counted among the fetch events. *)
Lemma download_counted (w : world)
    (youtube_url base artist album stem : pystr) (sim : bool) (s : state) :
  length (fetch_events (trace s)) <
  length (fetch_events
            (trace (snd (download_youtube_track_for_spotify w youtube_url base
                           artist album stem sim s)))).
Proof.
  destruct (download_leaves_fetch_event w youtube_url base artist album stem
              sim s) as [more E].
  rewrite E, fetch_events_app, length_app; simpl; lia.
Qed.

(** C7: for an item whose search exits with a non-zero status or prints
    nothing but whitespace, the turn ends as [LocatorMiss], the only call
    made after the track was resolved is the search (no directory is made,
    nothing is written, the download tool is not run), and the loop goes on
    with the next item. *)
Theorem C7_locator_miss_skips_fetch (w : world) (base : pystr) (sim : bool)
    (item t : track_item) (rest : list track_item) (s s0 : state)
    (yt_url_result : completed) (disk : filesys) :
  full_track w item s = (Ret (inl t), s0) ->
  run_process w (trace s0) (get_yt_url_command (search_query_of t)) (fs s0)
    = Ret (yt_url_result, disk) ->
  returncode yt_url_result <> 0%Z \/ strip (stdout yt_url_result) = [] ->
  let s1 := log (EvRun (get_yt_url_command (search_query_of t)))
                (set_fs disk s0) in
  process_track w base sim item s = (Ret LocatorMiss, s1) /\
  fetch_events (trace s1) = fetch_events (trace s0) /\
  process_tracks w base sim (item :: rest) s =
    (let '(outs, e, s2) := process_tracks w base sim rest s1 in
     (LocatorMiss :: outs, e, s2)).
Proof.
  intros Hfull Hrun Hmiss s1.
  assert (E : process_track w base sim item s = (Ret LocatorMiss, s1)).
  { unfold process_track, bind; rewrite Hfull.
    unfold locate_and_download, bind, subprocess_run; rewrite Hrun.
    fold s1.
    destruct Hmiss as [Hc|Ho].
    - apply Z.eqb_neq in Hc; rewrite Hc; reflexivity.
    - rewrite Ho, andb_false_r; reflexivity. }
  split; [exact E|]; split.
  - unfold s1; simpl; rewrite fetch_events_app; simpl.
    apply app_nil_r.
  - rewrite process_tracks_cons, E; reflexivity.
Qed.

Lemma C7_locator_miss_skips_fetch_witness :
  process_tracks Sample.miss_world (py "/root") true
    [Sample.song_a; Sample.song_b] Sample.start
  = ([LocatorMiss;
      Fetched (Some (py "/root/Music/Band/Album/02 - Song B.mp3"))], None,
     snd (process_tracks Sample.miss_world (py "/root") true
            [Sample.song_a; Sample.song_b] Sample.start)).
Proof.
  destruct (@C7_locator_miss_skips_fetch Sample.miss_world (py "/root") true
              Sample.song_a Sample.song_a [Sample.song_b]
              Sample.start Sample.start (Sample.done 0 []) empty_fs
              eq_refl eq_refl (or_intror eq_refl)) as [_ [_ E]].
  rewrite E; reflexivity.
Defined.

(* ================================================================= *)
(** * Part III: further properties of the code *)
(* ================================================================= *)

(** ** More on the sanitizer *)

Lemma replace_app (old : char) (new a b : pystr) :
  replace old new (a ++ b) = replace old new a ++ replace old new b.
Proof. unfold replace; apply flat_map_app. Qed.

(** A slash, a backslash and a hyphen at the same place give the same
    sanitized name: different titles can end up with one file name. *)
Theorem sanitize_separators_collide (a b : pystr) :
  sanitize_filename (a ++ ch "/" :: b) = sanitize_filename (a ++ ch "-" :: b) /\
  sanitize_filename (a ++ ch "\" :: b) = sanitize_filename (a ++ ch "-" :: b).
Proof.
  unfold sanitize_filename; split.
  - do 2 f_equal.
    change (a ++ ch "/" :: b) with (a ++ [ch "/"] ++ b).
    change (a ++ ch "-" :: b) with (a ++ [ch "-"] ++ b).
    rewrite !(replace_app (ch "/")); reflexivity.
  - do 2 f_equal.
    change (a ++ ch "\" :: b) with (a ++ [ch "\"] ++ b).
    change (a ++ ch "-" :: b) with (a ++ [ch "-"] ++ b).
    rewrite !(replace_app (ch "/")), !(replace_app (ch "\")); reflexivity.
Qed.

(** The names the sanitizer leaves as they are are exactly those without a
    replaced character, of at most 150 characters, and without whitespace
    at either end. *)
Theorem sanitize_fixed_points (y : pystr) :
  sanitize_filename y = y <->
  no_forbidden y /\ length y <= 150 /\ stripped y.
Proof.
  split.
  - intros E; rewrite <- E.
    split; [apply sanitize_no_forbidden|].
    split; [apply sanitize_length | apply sanitize_stripped].
  - intros [Hf [Hl Hs]]; apply sanitize_fixpoint; assumption.
Qed.

(** ** Runs that end before the first item *)

(** Without both credentials, without the client library, or with a
    reference that is neither a track nor an album, the function returns at
    once: no call leaves the program and the disk is as it was. *)
Theorem fatal_conditions_make_no_call (w : world) (base : pystr) (sim : bool)
    (spotify_url : pystr) (ffmpeg_available : bool) (s : state) :
  truthy_opt (client_id w) = false \/
  truthy_opt (client_secret w) = false \/
  spotipy_installed w = false \/
  (contains (py "/track/") spotify_url = false /\
   contains (py "/album/") spotify_url = false) ->
  process_spotify_link w base sim spotify_url ffmpeg_available s = (None, s).
Proof.
  unfold process_spotify_link.
  intros [H|[H|[H|[Ht Ha]]]].
  - rewrite H; reflexivity.
  - rewrite H, andb_false_r; reflexivity.
  - rewrite H; destruct (negb _); reflexivity.
  - destruct (negb _); [reflexivity|].
    destruct (negb _); [reflexivity|].
    unfold tracks_to_download, bind, ret; rewrite Ht, Ha; reflexivity.
Qed.

Lemma fatal_conditions_make_no_call_witness :
  process_spotify_link Sample2.no_secret_world (py "/root") true
    Sample.album_url true Sample.start = (None, Sample.start) /\
  process_spotify_link Sample.scenario_world (py "/root") true
    (py "https://open.spotify.com/playlist/1") true Sample.start
  = (None, Sample.start).
Proof.
  split.
  - apply fatal_conditions_make_no_call; right; left; reflexivity.
  - apply fatal_conditions_make_no_call; right; right; right;
      split; reflexivity.
Defined.

(** ** A listing that breaks off *)

Lemma follow_pages_unserved (next : cursor) :
  ~ served next ->
  forall acc s, exists e k,
    follow_pages next acc s
    = (Raise e, {| fs := fs s; trace := trace s ++ repeat EvNext (S k) |}).
Proof.
  induction next using cursor_page_ind
    with (P := fun p => ~ served (NextPage p) ->
                 forall acc s, exists e k,
                   follow_pages (NextPage p) acc s
                   = (Raise e, {| fs := fs s;
                                  trace := trace s ++ repeat EvNext (S k) |})).
  - intros H acc s; simpl in *.
    destruct (IHnext H (match items with [] => acc | _ :: _ => acc ++ items end)
                (log EvNext s)) as [e [k E]].
    exists e, (S k); rewrite E; simpl.
    rewrite <- app_assoc; reflexivity.
  - intros H; exfalso; apply H; exact I.
  - exact IHnext.
  - intros _ acc s; exists TypeError, 0; reflexivity.
  - intros _ acc s; exists e, 0; reflexivity.
Qed.

(** When a request for a further page of an album is not answered with a
    page, the entries of the pages already fetched are lost with it: the
    function returns without a search, a download or a change on disk. The
    only calls made are the catalog's. *)
Theorem broken_listing_processes_nothing (w : world) (base : pystr)
    (sim : bool) (url name : pystr) (ffmpeg_available : bool) (s : state)
    (items : list track_item) (next : cursor) :
  truthy_opt (client_id w) = true ->
  truthy_opt (client_secret w) = true ->
  spotipy_installed w = true ->
  contains (py "/track/") url = false ->
  contains (py "/album/") url = true ->
  sp_album w (trace s) url = Ret (Some name) ->
  sp_album_tracks w (trace s ++ [EvAlbum url]) url
    = Ret (Some (Page items next)) ->
  ~ served next ->
  exists k,
    process_spotify_link w base sim url ffmpeg_available s
    = (None,
       {| fs := fs s;
          trace := trace s ++ EvAlbum url :: EvAlbumTracks url
                               :: repeat EvNext (S k) |}).
Proof.
  intros Hid Hsec Hspot Ht Ha Halbum Htracks Hbroken.
  destruct (follow_pages_unserved next Hbroken items
              (log (EvAlbumTracks url) (log (EvAlbum url) s))) as [e [k E]].
  exists k.
  unfold process_spotify_link; rewrite Hid, Hsec, Hspot; simpl.
  unfold tracks_to_download, bind, call_album, call_album_tracks.
  rewrite Ht, Ha, Halbum; simpl.
  rewrite Htracks, E; simpl.
  rewrite <- !app_assoc; reflexivity.
Qed.

Lemma broken_listing_processes_nothing_witness :
  exists k,
    process_spotify_link Sample2.broken_world (py "/root") true
      Sample.album_url true Sample.start
    = (None,
       {| fs := empty_fs;
          trace := EvAlbum Sample.album_url
                   :: EvAlbumTracks Sample.album_url
                   :: repeat EvNext (S k) |}).
Proof.
  exact (@broken_listing_processes_nothing Sample2.broken_world (py "/root")
           true Sample.album_url (py "Album") true Sample.start
           [Sample.intro; Sample.song_a] (NextRaises SpotifyException)
           eq_refl eq_refl eq_refl eq_refl eq_refl eq_refl eq_refl
           (fun H => H)).
Defined.

(** ** What a download does to the disk *)

Lemma pystr_eqb_eq (a b : pystr) : pystr_eqb a b = true <-> a = b.
Proof.
  revert b; induction a as [|x a IH]; intros [|y b]; simpl;
    try (split; [discriminate | congruence]); [tauto|].
  rewrite andb_true_iff, N.eqb_eq, IH.
  split; [intros [-> ->]; reflexivity | intros E; injection E; auto].
Qed.

Lemma pystr_eqb_neq (a b : pystr) : pystr_eqb a b = false <-> a <> b.
Proof.
  rewrite <- pystr_eqb_eq; destruct (pystr_eqb a b); split; congruence.
Qed.

Lemma file_content_put_same (p c : pystr) (f : filesys) :
  file_content (put_file p c f) p = Some c.
Proof.
  unfold file_content, put_file; simpl.
  rewrite (proj2 (pystr_eqb_eq p p) eq_refl); reflexivity.
Qed.

Lemma file_content_put_other (p c q : pystr) (f : filesys) :
  q <> p -> file_content (put_file p c f) q = file_content f q.
Proof.
  intros Hne; unfold file_content, put_file; simpl.
  rewrite (proj2 (pystr_eqb_neq q p) Hne); f_equal.
  induction (fs_files f) as [|[k v] l IH]; simpl; [reflexivity|].
  destruct (pystr_eqb p k) eqn:Epk; simpl.
  - apply pystr_eqb_eq in Epk; subst k.
    rewrite (proj2 (pystr_eqb_neq q p) Hne); exact IH.
  - destruct (pystr_eqb q k); [reflexivity | exact IH].
Qed.

(** A simulated download whose directory can be made and whose write goes
    through returns the path of the placeholder, leaves there the two lines
    that name the stem and the URL, and leaves every other file as it
    was. *)
Theorem simulate_writes_one_file (w : world)
    (youtube_url base artist album stem : pystr) (s : state) :
  let dir := path_join base [py "Music"; artist; album] in
  let path := path_join dir [stem ++ py ".mp3"] in
  let s1 := log (EvMakedirs dir) (set_fs (add_dir dir (fs s)) s) in
  makedirs_error w (trace s) dir (fs s) = None ->
  write_error w (trace s1) path (fs s1) = None ->
  let r := download_youtube_track_for_spotify w youtube_url base artist album
             stem true s in
  fst r = Ret (Some path) /\
  file_content (fs (snd r)) path
    = Some (py "This is a simulated audio file for '" ++ stem ++ py "'."
            ++ [NEWLINE] ++ py "Original YouTube URL: " ++ youtube_url
            ++ [NEWLINE]) /\
  forall q, q <> path ->
            file_content (fs (snd r)) q = file_content (fs s) q.
Proof.
  intros dir path s1 Hmk Hw.
  unfold download_youtube_track_for_spotify, bind, try_except, makedirs,
    write_file, ret.
  fold dir; rewrite Hmk; fold s1; fold path; rewrite Hw; simpl.
  split; [reflexivity|]; split.
  - apply file_content_put_same.
  - intros q Hq; rewrite file_content_put_other by exact Hq; reflexivity.
Qed.

Lemma simulate_writes_one_file_witness :
  let r := download_youtube_track_for_spotify Sample.scenario_world
             Sample.found_url (py "/root") (py "Band") (py "Album")
             (py "01 - Intro") true Sample2.busy_start in
  fst r = Ret (Some (py "/root/Music/Band/Album/01 - Intro.mp3")) /\
  file_content (fs (snd r)) Sample2.other_file = Some (py "audio").
Proof.
  destruct (@simulate_writes_one_file Sample.scenario_world Sample.found_url
              (py "/root") (py "Band") (py "Album") (py "01 - Intro")
              Sample2.busy_start eq_refl eq_refl) as [E [_ H]].
  split; [exact E|].
  rewrite (H Sample2.other_file); [reflexivity|].
  intros C; vm_compute in C; discriminate C.
Defined.

(** In real mode, once the directory is made, the function never raises:
    when the tool cannot be started, or whatever exception its run raises,
    and when it exits with a non-zero status, the result is [None]. *)
Theorem real_mode_failures_return_None (w : world)
    (youtube_url base artist album stem : pystr) (s : state) :
  let dir := path_join base [py "Music"; artist; album] in
  let s1 := log (EvMakedirs dir) (set_fs (add_dir dir (fs s)) s) in
  let cmd := yt_dlp_command (path_join dir [stem ++ py ".%(ext)s"])
                            youtube_url in
  makedirs_error w (trace s) dir (fs s) = None ->
  (exists r s', download_youtube_track_for_spotify w youtube_url base artist
                  album stem false s = (Ret r, s')) /\
  (forall e, run_process w (trace s1) cmd (fs s1) = Raise e ->
     download_youtube_track_for_spotify w youtube_url base artist album stem
       false s = (Ret None, log (EvRun cmd) s1)) /\
  (forall result disk,
     run_process w (trace s1) cmd (fs s1) = Ret (result, disk) ->
     returncode result <> 0%Z ->
     download_youtube_track_for_spotify w youtube_url base artist album stem
       false s = (Ret None, log (EvRun cmd) (set_fs disk s1))).
Proof.
  intros dir s1 cmd Hmk.
  unfold download_youtube_track_for_spotify, bind, try_except, makedirs,
    subprocess_run, get_fs, ret.
  fold dir; rewrite Hmk; fold s1; fold cmd.
  split; [|split].
  - destruct (run_process w (trace s1) cmd (fs s1)) as [[c f']|e];
      [|eexists; eexists; reflexivity].
    destruct (returncode c =? 0)%Z; [|eexists; eexists; reflexivity].
    destruct (final_filepath_of (stdout c)) as [q|];
      [|eexists; eexists; reflexivity].
    simpl; destruct (truthy q && path_exists f' q);
      eexists; eexists; reflexivity.
  - intros e ->; reflexivity.
  - intros result disk -> Hcode.
    apply Z.eqb_neq in Hcode; rewrite Hcode; reflexivity.
Qed.

Lemma real_mode_failures_return_None_witness :
  fst (download_youtube_track_for_spotify Sample.scenario_world
         Sample.found_url (py "/root") (py "Band") (py "Album")
         (py "01 - Intro") false Sample.start) = Ret None /\
  fst (download_youtube_track_for_spotify Sample2.failing_tool_world
         Sample.found_url (py "/root") (py "Band") (py "Album")
         (py "01 - Intro") false Sample.start) = Ret None.
Proof.
  destruct (@real_mode_failures_return_None Sample.scenario_world
              Sample.found_url (py "/root") (py "Band") (py "Album")
              (py "01 - Intro") Sample.start eq_refl) as [_ [H1 _]].
  destruct (@real_mode_failures_return_None Sample2.failing_tool_world
              Sample.found_url (py "/root") (py "Band") (py "Album")
              (py "01 - Intro") Sample.start eq_refl) as [_ [_ H2]].
  split.
  - rewrite (H1 FileNotFoundError eq_refl); reflexivity.
  - erewrite H2; [reflexivity | reflexivity | discriminate].
Defined.

(** ** Where the files go *)

Lemma startswith_slash_cons (c : char) (x : pystr) :
  c <> ch "/" -> startswith (py "/") (c :: x) = false.
Proof.
  intros H.
  change (startswith (py "/") (c :: x)) with (N.eqb (ch "/") c && true).
  destruct (N.eqb_spec (ch "/") c) as [E|E]; [|reflexivity].
  exfalso; apply H; symmetry; exact E.
Qed.

Lemma startswith_slash (x : pystr) :
  ~ In (ch "/") x -> startswith (py "/") x = false.
Proof.
  destruct x as [|c x]; [reflexivity|].
  intros H; apply startswith_slash_cons.
  intros E; apply H; left; exact E.
Qed.

Lemma endswith_char_app (c : char) (a b : pystr) :
  b <> [] -> endswith_char c (a ++ b) = endswith_char c b.
Proof.
  intros Hb; unfold endswith_char; rewrite rev_app_distr.
  destruct (rev b) as [|x r] eqn:R; [|reflexivity].
  apply (f_equal (@rev char)) in R; rewrite rev_involutive in R; contradiction.
Qed.

Lemma endswith_char_absent (c : char) (b : pystr) :
  ~ In c b -> endswith_char c b = false.
Proof.
  intros H; unfold endswith_char.
  destruct (rev b) as [|x r] eqn:R; [reflexivity|].
  destruct (N.eqb_spec x c) as [->|]; [|reflexivity].
  exfalso; apply H, in_rev; rewrite R; left; reflexivity.
Qed.

Lemma path_join2_relative (p b : pystr) :
  p <> [] -> endswith_char (ch "/") p = false ->
  startswith (py "/") b = false ->
  path_join2 p b = p ++ py "/" ++ b.
Proof.
  intros Hp He Hs; unfold path_join2; rewrite Hs, He.
  destruct p; [contradiction | reflexivity].
Qed.

Lemma path_join2_after_slash (p b : pystr) :
  endswith_char (ch "/") p = true -> startswith (py "/") b = false ->
  path_join2 p b = p ++ b.
Proof.
  intros He Hs; unfold path_join2; rewrite Hs, He, orb_true_r; reflexivity.
Qed.

Lemma sanitize_no_slash (x : pystr) : ~ In (ch "/") (sanitize_filename x).
Proof. apply sanitize_no_forbidden; left; reflexivity. Qed.

Lemma str_of_int_head (n : Z) :
  exists c r, str_of_int n = c :: r /\ c <> ch "/".
Proof.
  unfold str_of_int.
  destruct (Z.to_int n) as [d|d]; simpl.
  - destruct d; simpl; eexists; eexists; (split; [reflexivity | discriminate]).
  - eexists; eexists; (split; [reflexivity | discriminate]).
Qed.

Lemma zfill2_head (s : pystr) :
  (exists c r, s = c :: r /\ c <> ch "/") ->
  exists c r, zfill 2 s = c :: r /\ c <> ch "/".
Proof.
  intros [c [r [-> Hc]]]; unfold zfill.
  destruct (Nat.leb 2 (length (c :: r))) eqn:L; [exists c, r; auto|].
  destruct r as [|c' r]; [|simpl in L; destruct r; discriminate L].
  simpl.
  destruct (_ || _); eexists; eexists;
    (split; [reflexivity|]); [exact Hc | discriminate].
Qed.

Lemma filename_stem_relative (t : track_item) (ext : pystr) :
  startswith (py "/") (filename_stem_of t ++ ext) = false.
Proof.
  unfold filename_stem_of.
  destruct (zfill2_head (str_of_int_head (track_number_of t)))
    as [c [r [-> Hc]]].
  rewrite <- !app_assoc, <- app_comm_cons.
  apply startswith_slash_cons; exact Hc.
Qed.

(** For a download root that is not empty and does not end with a slash,
    and a track whose sanitized artist and album are not empty, the file is
    [root/Music/artist/album/stem.mp3], the artist and the album being one
    directory level each. *)
Theorem track_file_layout (t : track_item) (base : pystr) :
  base <> [] -> endswith_char (ch "/") base = false ->
  s_artist_of t <> [] -> s_album_of t <> [] ->
  path_join
    (path_join base [py "Music"; s_artist_of t; s_album_of t])
    [filename_stem_of t ++ py ".mp3"]
  = base ++ py "/Music/" ++ s_artist_of t ++ py "/" ++ s_album_of t
    ++ py "/" ++ filename_stem_of t ++ py ".mp3"
  /\ ~ In (ch "/") (s_artist_of t) /\ ~ In (ch "/") (s_album_of t).
Proof.
  intros Hb He Ha Hal.
  assert (Na : ~ In (ch "/") (s_artist_of t)) by apply sanitize_no_slash.
  assert (Nal : ~ In (ch "/") (s_album_of t)) by apply sanitize_no_slash.
  split; [|split; assumption].
  unfold path_join; simpl fold_left.
  rewrite (@path_join2_relative base (py "Music") Hb He eq_refl).
  rewrite (@path_join2_relative _ (s_artist_of t));
    [| destruct base; discriminate
     | rewrite endswith_char_app by discriminate; reflexivity
     | apply startswith_slash; exact Na].
  rewrite (@path_join2_relative _ (s_album_of t));
    [| destruct base; discriminate
     | rewrite !app_assoc, endswith_char_app by exact Ha;
       apply endswith_char_absent; exact Na
     | apply startswith_slash; exact Nal].
  rewrite (@path_join2_relative _ (filename_stem_of t ++ py ".mp3"));
    [| destruct base; discriminate
     | rewrite !app_assoc, endswith_char_app by exact Hal;
       apply endswith_char_absent; exact Nal
     | apply filename_stem_relative].
  rewrite <- !app_assoc; reflexivity.
Qed.

Lemma track_file_layout_witness :
  path_join
    (path_join (py "/root")
       [py "Music"; s_artist_of Sample.comma_track;
        s_album_of Sample.comma_track])
    [filename_stem_of Sample.comma_track ++ py ".mp3"]
  = py "/root/Music/Tyler/Album/03 - Song.mp3".
Proof.
  exact (proj1 (@track_file_layout Sample.comma_track (py "/root")
                  ltac:(discriminate) eq_refl
                  ltac:(discriminate) ltac:(discriminate))).
Defined.

(** When the sanitized artist is empty (a name made of question marks, or
    one that starts with a comma), there is no artist level: the album
    directory is put directly under [Music]. *)
Theorem empty_artist_folder_collapses (t : track_item) (base : pystr) :
  base <> [] -> endswith_char (ch "/") base = false ->
  s_artist_of t = [] ->
  path_join base [py "Music"; s_artist_of t; s_album_of t]
  = base ++ py "/Music/" ++ s_album_of t.
Proof.
  intros Hb He Ha; rewrite Ha.
  unfold path_join; simpl fold_left.
  rewrite (@path_join2_relative base (py "Music") Hb He eq_refl).
  rewrite (@path_join2_relative _ []);
    [| destruct base; discriminate
     | rewrite endswith_char_app by discriminate; reflexivity
     | reflexivity].
  rewrite path_join2_after_slash;
    [| rewrite endswith_char_app by discriminate; reflexivity
     | apply startswith_slash, sanitize_no_slash].
  rewrite <- !app_assoc; reflexivity.
Qed.

Lemma empty_artist_folder_collapses_witness :
  path_join (py "/root")
    [py "Music"; s_artist_of Sample3.nameless; s_album_of Sample3.nameless]
  = py "/root/Music/Album".
Proof.
  exact (@empty_artist_folder_collapses Sample3.nameless (py "/root")
           ltac:(discriminate) eq_refl eq_refl).
Defined.

(** ** The number in front of the title *)

Lemma two_digits_below_100 :
  forallb two_digits_of (map Z.of_nat (seq 0 100)) = true.
Proof. vm_compute; reflexivity. Qed.

(** For a track number from 0 to 99 the stem starts with exactly two
    decimal digits that spell the number, followed by [" - "] and the
    sanitized title. *)
Theorem stem_has_two_digits (t : track_item) (n : Z) :
  tr_track_number t = Some n -> (0 <= n <= 99)%Z ->
  exists d1 d2 : N,
    filename_stem_of t
    = d1 :: d2 :: py " - " ++ sanitize_filename (track_name_of t) /\
    (48 <= d1 <= 57)%N /\ (48 <= d2 <= 57)%N /\
    n = (10 * (Z.of_N d1 - 48) + (Z.of_N d2 - 48))%Z.
Proof.
  intros Hn Hr.
  assert (C : two_digits_of n = true).
  { pose proof two_digits_below_100 as F.
    rewrite forallb_forall in F; apply F.
    apply in_map_iff; exists (Z.to_nat n); split; [lia|].
    apply in_seq; lia. }
  unfold filename_stem_of, track_number_of; rewrite Hn.
  unfold two_digits_of in C.
  destruct (zfill 2 (str_of_int n)) as [|d1 [|d2 [|? ?]]]; try discriminate C.
  exists d1, d2.
  rewrite !andb_true_iff in C.
  destruct C as [[[[A B] C] D] E].
  apply N.leb_le in A, B, C, D; apply Z.eqb_eq in E.
  repeat split; assumption.
Qed.

Lemma stem_has_two_digits_witness :
  exists d1 d2 : N,
    filename_stem_of Sample.song_b = d1 :: d2 :: py " - Song B" /\
    (48 <= d1 <= 57)%N /\ (48 <= d2 <= 57)%N /\
    2%Z = (10 * (Z.of_N d1 - 48) + (Z.of_N d2 - 48))%Z.
Proof.
  exact (@stem_has_two_digits Sample.song_b 2 eq_refl
           (conj (proj1 (Z.leb_le 0 2) eq_refl) (proj1 (Z.leb_le 2 99) eq_refl))).
Defined.

(** ** Every item gets its turn *)

(** In a world where no call made by a turn raises (a refused placeholder
    write apart), the loop takes a turn for every item of the batch,
    whatever the outcomes: items without id, searches without result and
    failed downloads do not shorten it. *)
Theorem every_item_gets_a_turn (w : world) (base : pystr) (sim : bool)
    (items : list track_item) (s : state) :
  calm w ->
  exists outs s',
    process_tracks w base sim items s = (outs, None, s') /\
    length outs = length items.
Proof. intros H; apply calm_loop_complete; exact H. Qed.

Lemma every_item_gets_a_turn_witness :
  exists outs s',
    process_tracks Sample2.failing_tool_world (py "/root") false
      [Sample.thin; Sample.intro; Sample.song_a] Sample.start
    = (outs, None, s') /\ length outs = 3.
Proof.
  apply (@every_item_gets_a_turn Sample2.failing_tool_world (py "/root") false
           [Sample.thin; Sample.intro; Sample.song_a] Sample.start).
  repeat split.
  - intros h ref; eexists; reflexivity.
  - intros h q f; eexists; reflexivity.
  - intros h p f e H; discriminate H.
Defined.

(** ** The URL a search yields *)

Lemma split_hd_no_sep (sep : char) (s : pystr) :
  ~ In sep (hd [] (split sep s)).
Proof.
  induction s as [|c s IH]; simpl; [tauto|].
  destruct (N.eqb_spec c sep) as [->|Hne]; simpl; [tauto|].
  destruct (split sep s) as [|l ls]; simpl in *.
  - intros [E|[]]; congruence.
  - intros [E|H]; [congruence | exact (IH H)].
Qed.

Lemma split_hd_prefix (sep : char) (s : pystr) :
  exists rest, s = hd [] (split sep s) ++ rest.
Proof.
  induction s as [|c s [rest IH]]; simpl; [exists []; reflexivity|].
  destruct (N.eqb c sep); simpl; [exists (c :: s); reflexivity|].
  destruct (split sep s) as [|l ls]; simpl in *.
  - exists s; reflexivity.
  - exists rest; congruence.
Qed.

(** When the search prints something, the URL taken from it (the first
    line of the stripped output) is not empty, holds no line break, starts
    with a character that is not whitespace, and is the beginning of the
    stripped output. *)
Theorem located_url_is_first_line (out : pystr) :
  truthy (strip out) = true ->
  let youtube_video_url := hd [] (split NEWLINE (strip out)) in
  (exists c r, youtube_video_url = c :: r /\ isspace c = false) /\
  ~ In NEWLINE youtube_video_url /\
  exists rest, strip out = youtube_video_url ++ rest.
Proof.
  intros T url; split; [|split].
  - destruct (strip out) as [|c r] eqn:E; [discriminate T|].
    assert (Hc : isspace c = false).
    { destruct (strip_stripped out) as [Hh _]; exact (Hh c r E). }
    unfold url; try rewrite E; simpl.
    destruct (N.eqb_spec c NEWLINE) as [->|_]; [discriminate Hc|].
    destruct (split NEWLINE r) as [|l ls]; simpl; eexists; eexists; eauto.
  - apply split_hd_no_sep.
  - apply split_hd_prefix.
Qed.

Lemma located_url_is_first_line_witness :
  let youtube_video_url :=
    hd [] (split NEWLINE
             (strip (py " https://youtu.be/x" ++ [NEWLINE]
                     ++ py "https://youtu.be/y" ++ [NEWLINE]))) in
  youtube_video_url = py "https://youtu.be/x" /\
  ~ In NEWLINE youtube_video_url.
Proof.
  destruct (@located_url_is_first_line
              (py " https://youtu.be/x" ++ [NEWLINE]
               ++ py "https://youtu.be/y" ++ [NEWLINE]) eq_refl)
    as [_ [H _]].
  split; [reflexivity | exact H].
Defined.

(** ** [download_audio] *)

Lemma lower_endswith_mp3_app (r : pystr) :
  lower_endswith_mp3 (r ++ py ".mp3") = true.
Proof. unfold lower_endswith_mp3; rewrite rev_app_distr; reflexivity. Qed.

(** [get_video_info] never raises, and a path it reports ends with [.mp3],
    whatever the case of the letters. *)
Lemma get_video_info_path (w : world) (json_loads : pystr -> json_value)
    (youtube_url template : pystr) (s : state) :
  exists a b s',
    get_video_info w json_loads youtube_url template s = (Ret (a, b), s') /\
    forall p, a = Some p -> lower_endswith_mp3 p = true /\ p <> [].
Proof.
  unfold get_video_info, try_except, bind, subprocess_run at 1.
  destruct (run_process w (trace s) _ (fs s)) as [[c f']|e];
    [|exists None, None; eexists; split; [reflexivity | discriminate]].
  destruct ((returncode c =? 0)%Z && truthy (strip (stdout c)));
    [|exists None, None; eexists; split; [reflexivity | discriminate]].
  destruct (fetch_title w json_loads youtube_url _) as [[t|e] s2];
    [|exists None, None; eexists; split; [reflexivity | discriminate]].
  set (path := if negb (lower_endswith_mp3 (strip (stdout c)))
               then splitext_root (strip (stdout c)) ++ py ".mp3"
               else strip (stdout c)).
  destruct (truthy path) eqn:T;
    [|exists None, None; eexists; split; [reflexivity | discriminate]].
  exists (Some path), t; eexists; split; [reflexivity|].
  intros p E; injection E as <-; split.
  - unfold path.
    destruct (lower_endswith_mp3 (strip (stdout c))) eqn:L; simpl;
      [exact L | apply lower_endswith_mp3_app].
  - apply truthy_nonempty; exact T.
Qed.

(** A simulated [download_audio] that returns a path returns one that ends
    with [.mp3] (in any case of the letters), and the file at that path
    then holds the placeholder text for some non-empty title. *)
Theorem download_audio_simulated_file (w : world)
    (json_loads : pystr -> json_value) (youtube_url output_path p : pystr)
    (s s' : state) :
  download_audio w json_loads youtube_url output_path true s
    = (Ret (Some p), s') ->
  lower_endswith_mp3 p = true /\
  exists title,
    title <> [] /\
    file_content (fs s') p = Some (audio_dummy_content title youtube_url).
Proof.
  unfold download_audio, bind, makedirs at 1.
  destruct (makedirs_error w (trace s) _ (fs s)); [discriminate|].
  match goal with
  | |- context [get_video_info w json_loads ?u ?t ?x] =>
      destruct (get_video_info_path w json_loads u t x)
        as [a [b [s1 [G Hp]]]]; rewrite G
  end.
  destruct a as [path|]; [|discriminate].
  destruct b as [title|]; [|discriminate].
  destruct (Hp path eq_refl) as [Hmp3 _].
  destruct (truthy path && truthy title) eqn:T; [|discriminate].
  apply andb_true_iff in T as [_ Tt].
  unfold makedirs, write_file, ret.
  destruct (makedirs_error w (trace s1) _ (fs s1)); [discriminate|].
  destruct (write_error w _ _ _); [discriminate|].
  intros E; injection E as <- <-.
  split; [exact Hmp3|].
  exists title; split; [apply truthy_nonempty; exact Tt|].
  apply file_content_put_same.
Qed.

Lemma download_audio_simulated_file_witness :
  lower_endswith_mp3 (py "/dl/Music/Clip.mp3") = true /\
  exists title,
    title <> [] /\
    file_content
      (fs (snd (download_audio Sample4.webm_world Sample4.loads
                  Sample4.video_url (py "/dl") true Sample.start)))
      (py "/dl/Music/Clip.mp3")
    = Some (audio_dummy_content title Sample4.video_url).
Proof.
  exact (@download_audio_simulated_file Sample4.webm_world Sample4.loads
           Sample4.video_url (py "/dl") (py "/dl/Music/Clip.mp3")
           Sample.start
           (snd (download_audio Sample4.webm_world Sample4.loads
                   Sample4.video_url (py "/dl") true Sample.start))
           eq_refl).
Defined.

(** In real mode [download_audio] behaves as the Spotify download does:
    once [Music] is made it never raises; it returns a path exactly when the
    tool exits with status 0, the path is the last non-blank line of its
    stdout, stripped, and the path exists on disk after the run. *)
Theorem download_audio_real_mode (w : world)
    (json_loads : pystr -> json_value) (youtube_url output_path : pystr)
    (s : state) :
  let music_dir := path_join output_path [py "Music"] in
  let s1 := log (EvMakedirs music_dir) (set_fs (add_dir music_dir (fs s)) s) in
  let cmd := yt_dlp_audio_command
               (path_join music_dir [py "%(title)s.%(ext)s"]) youtube_url in
  makedirs_error w (trace s) music_dir (fs s) = None ->
  exists r s',
    download_audio w json_loads youtube_url output_path false s = (Ret r, s') /\
    forall p, r = Some p <->
      exists result disk,
        run_process w (trace s1) cmd (fs s1) = Ret (result, disk) /\
        returncode result = 0%Z /\
        last_nonblank_line (stdout result) p /\
        path_exists disk p = true.
Proof.
  intros music_dir s1 cmd Hmk.
  unfold download_audio, bind, try_except, makedirs, subprocess_run, get_fs,
    ret.
  fold music_dir; rewrite Hmk; fold s1; fold cmd.
  destruct (run_process w (trace s1) cmd (fs s1)) as [[c disk]|e].
  - destruct (Z.eqb_spec (returncode c) 0) as [Hc|Hc].
    + destruct (final_filepath_of (stdout c)) as [q|] eqn:F.
      * pose proof (proj1 (final_filepath_spec (stdout c) q) F) as Hq.
        assert (Tq : truthy q = true).
        { destruct Hq as [b [l [a [_ [_ [Hl ->]]]]]].
          apply truthy_nonempty; exact Hl. }
        simpl; rewrite Tq; simpl.
        destruct (path_exists disk q) eqn:X; eexists; eexists;
          (split; [reflexivity|]); intros p; split.
        -- intros E; injection E as <-; exists c, disk; auto.
        -- intros [c' [d' [E [_ [Hp _]]]]]; injection E as <- <-.
           apply final_filepath_spec in Hp; congruence.
        -- discriminate.
        -- intros [c' [d' [E [_ [Hp Hx]]]]]; injection E as <- <-.
           apply final_filepath_spec in Hp.
           rewrite F in Hp; injection Hp as <-; congruence.
      * eexists; eexists; split; [reflexivity|].
        intros p; split; [discriminate|].
        intros [c' [d' [E [_ [Hp _]]]]]; injection E as <- <-.
        apply final_filepath_spec in Hp; congruence.
    + eexists; eexists; split; [reflexivity|].
      intros p; split; [discriminate|].
      intros [c' [d' [E [Hz _]]]]; injection E as <- <-; contradiction.
  - eexists; eexists; split; [reflexivity|].
    intros p; split; [discriminate|].
    intros [c' [d' [E _]]]; discriminate E.
Qed.

Lemma download_audio_real_mode_witness :
  exists r s',
    download_audio Sample.real_world Sample4.loads Sample4.video_url
      (py "/dl") false Sample.start = (Ret r, s') /\
    r = Some (py "/out/a.mp3").
Proof.
  destruct (@download_audio_real_mode Sample.real_world Sample4.loads
              Sample4.video_url (py "/dl") Sample.start eq_refl)
    as [r [s' [E H]]].
  exists r, s'; split; [exact E|].
  apply H.
  eexists; eexists; split; [reflexivity|].
  split; [reflexivity|]; split; [|reflexivity].
  apply final_filepath_spec; reflexivity.
Defined.

Lemma fetch_title_trace (w : world) (json_loads : pystr -> json_value)
    (youtube_url : pystr) (s : state) :
  trace (snd (fetch_title w json_loads youtube_url s))
  = trace s ++ [EvRun (yt_dlp_json_command youtube_url)].
Proof.
  unfold fetch_title, bind, subprocess_run, ret, raise.
  destruct (run_process w (trace s) _ (fs s)) as [[c f']|e]; [|reflexivity].
  destruct ((returncode c =? 0)%Z && truthy (stdout c)); [|reflexivity].
  destruct (json_output_title_of (stdout c)) as [l|]; [|reflexivity].
  destruct (truthy l); [|reflexivity].
  destruct (json_loads l) as [|[t|]|]; reflexivity.
Qed.

Lemma get_video_info_trace (w : world) (json_loads : pystr -> json_value)
    (youtube_url template : pystr) (s : state) :
  exists more,
    trace (snd (get_video_info w json_loads youtube_url template s))
    = trace s ++ EvRun (filename_command template youtube_url) :: more /\
    (more = [] \/ more = [EvRun (yt_dlp_json_command youtube_url)]).
Proof.
  unfold get_video_info, try_except, bind, subprocess_run at 1.
  destruct (run_process w (trace s) _ (fs s)) as [[c f']|e];
    [|exists []; split; [reflexivity | left; reflexivity]].
  destruct ((returncode c =? 0)%Z && truthy (strip (stdout c)));
    [|exists []; split; [reflexivity | left; reflexivity]].
  match goal with
  | |- context [fetch_title w json_loads youtube_url ?x] =>
      pose proof (fetch_title_trace w json_loads youtube_url x) as T;
      destruct (fetch_title w json_loads youtube_url x) as [[t|e] s2]
  end; simpl in T.
  - exists [EvRun (yt_dlp_json_command youtube_url)]; split; [|right; reflexivity].
    destruct (truthy _); simpl; rewrite T, <- app_assoc; reflexivity.
  - exists [EvRun (yt_dlp_json_command youtube_url)]; split; [|right; reflexivity].
    simpl; rewrite T, <- app_assoc; reflexivity.
Qed.

(** A simulated [download_audio] starts no download: the only processes it
    runs are the filename query and, after it, the title query. *)
Theorem download_audio_simulation_runs_queries_only (w : world)
    (json_loads : pystr -> json_value) (youtube_url output_path : pystr)
    (s : state) (argv : list pystr) :
  In (EvRun argv)
     (trace (snd (download_audio w json_loads youtube_url output_path true s)))
  ->
  In (EvRun argv) (trace s) \/
  argv = filename_command
           (path_join (path_join output_path [py "Music"])
                      [py "%(title)s.%(ext)s"]) youtube_url \/
  argv = yt_dlp_json_command youtube_url.
Proof.
  unfold download_audio, bind, makedirs at 1.
  destruct (makedirs_error w (trace s) _ (fs s)); simpl.
  { rewrite in_app_iff; intros [H|[H|[]]]; [left; exact H | discriminate H]. }
  match goal with
  | |- context [get_video_info w json_loads ?u ?t ?x] =>
      destruct (get_video_info_trace w json_loads u t x) as [more [T Hm]];
      destruct (get_video_info w json_loads u t x) as [[[a b]|e] s1]
  end; simpl in T.
  - assert (Base : In (EvRun argv) (trace s1) ->
                   In (EvRun argv) (trace s) \/
                   argv = filename_command
                            (path_join (path_join output_path [py "Music"])
                               [py "%(title)s.%(ext)s"]) youtube_url \/
                   argv = yt_dlp_json_command youtube_url).
    { rewrite T, !in_app_iff; simpl.
      intros [[H|[H|[]]]|[H|H]]; [left; exact H | discriminate H | |].
      - injection H as <-; right; left; reflexivity.
      - destruct Hm as [-> | ->]; [destruct H|].
        destruct H as [H|[]]; injection H as <-; right; right; reflexivity. }
    destruct a as [path|]; [|exact Base].
    destruct b as [title|]; [|exact Base].
    destruct (truthy path && truthy title); [|exact Base].
    unfold makedirs, write_file, ret.
    destruct (makedirs_error w (trace s1) _ (fs s1)); simpl.
    { rewrite in_app_iff; intros [H|[H|[]]]; [auto | discriminate H]. }
    destruct (write_error w _ _ _); simpl;
      rewrite !in_app_iff; simpl;
      intros [[H|[H|[]]]|[H|[]]]; auto; discriminate H.
  - simpl; rewrite T, !in_app_iff; simpl.
    intros [[H|[H|[]]]|[H|H]]; [left; exact H | discriminate H | |].
    + injection H as <-; right; left; reflexivity.
    + destruct Hm as [-> | ->]; [destruct H|].
      destruct H as [H|[]]; injection H as <-; right; right; reflexivity.
Qed.

Lemma download_audio_simulation_runs_queries_only_witness :
  let run := download_audio Sample4.webm_world Sample4.loads
               Sample4.video_url (py "/dl") true Sample.start in
  let argv := yt_dlp_json_command Sample4.video_url in
  In (EvRun argv) (trace (snd run)) /\
  (In (EvRun argv) (trace Sample.start) \/
   argv = filename_command
            (path_join (path_join (py "/dl") [py "Music"])
                       [py "%(title)s.%(ext)s"]) Sample4.video_url \/
   argv = yt_dlp_json_command Sample4.video_url).
Proof.
  intros run argv.
  assert (H : In (EvRun argv) (trace (snd run))) by (vm_compute; auto 10).
  split; [exact H|].
  exact (@download_audio_simulation_runs_queries_only Sample4.webm_world
           Sample4.loads Sample4.video_url (py "/dl") Sample.start argv H).
Defined.

(** ** The script *)

(** Run as a script with a Spotify link (one that names neither
    [youtube.com] nor [youtu.be]) the program never starts the Spotify flow:
    it makes no call at all, and ends normally after a warning when a
    credential is missing, with [NameError] for [process_spotify_link] when
    both are set. *)
Theorem script_never_reaches_spotify_flow (w : world)
    (json_loads : pystr -> json_value) (env : script_env)
    (args : script_args) (s : state) :
  url_type_of (arg_url args) = Some Spotify ->
  home_dir env <> [] ->
  main w json_loads env args s =
    (if truthy_opt (client_id w) && truthy_opt (client_secret w)
     then UncaughtNameError (py "process_spotify_link")
     else Finished, s).
Proof.
  intros Hk Hh; unfold main; rewrite Hk.
  assert (T : truthy (match arg_output args with
                      | Some o => if truthy o then o else get_download_path env
                      | None => get_download_path env
                      end) = true).
  { assert (D : truthy (get_download_path env) = true).
    { unfold get_download_path, path_join; simpl; unfold path_join2.
      change (startswith (py "/") (py "Downloads")) with false; cbv iota.
      destruct (home_dir env) as [|c h]; [contradiction|].
      simpl truthy; cbv iota; simpl negb; simpl orb.
      destruct (endswith_char _ (c :: h)); reflexivity. }
    destruct (arg_output args) as [o|]; [|exact D].
    destruct (truthy o) eqn:To; [exact To | exact D]. }
  rewrite T; simpl.
  destruct (truthy_opt (client_id w) && truthy_opt (client_secret w));
    reflexivity.
Qed.

Lemma script_never_reaches_spotify_flow_witness :
  main Sample.scenario_world Sample4.loads Sample5.env Sample5.spotify_args
    Sample.start
  = (UncaughtNameError (py "process_spotify_link"), Sample.start).
Proof.
  exact (@script_never_reaches_spotify_flow Sample.scenario_world
           Sample4.loads Sample5.env Sample5.spotify_args Sample.start
           eq_refl ltac:(discriminate)).
Defined.

(** Whatever the command line, the only calls the script makes are those
    of one [download_audio], and it makes them only for a URL that names
    [youtube.com] or [youtu.be], also when the URL is a Spotify link. *)
Theorem script_calls_are_download_audio (w : world)
    (json_loads : pystr -> json_value) (env : script_env)
    (args : script_args) (s : state) :
  snd (main w json_loads env args s) = s \/
  (contains (py "youtube.com") (arg_url args)
     || contains (py "youtu.be") (arg_url args) = true /\
   exists output_directory,
     snd (main w json_loads env args s)
     = snd (download_audio w json_loads (arg_url args) output_directory
              (arg_simulate args) s)).
Proof.
  unfold main.
  destruct (negb (truthy _)); [left; reflexivity|].
  unfold url_type_of.
  destruct (contains (py "youtube.com") (arg_url args)
            || contains (py "youtu.be") (arg_url args)) eqn:Y.
  - right; split; [reflexivity|].
    eexists.
    destruct (download_audio w json_loads (arg_url args) _ (arg_simulate args) s)
      as [[r|e] s'] eqn:D; simpl; rewrite D; reflexivity.
  - left.
    destruct (contains (py "open.spotify.com") (arg_url args)); [|reflexivity].
    destruct (negb _); reflexivity.
Qed.

(** ** The audio player *)

Lemma player_step_keeps_pause_inside_play (c : Player.command)
    (p : Player.player) :
  (Player.paused p = true -> Player.playing p = true) ->
  Player.paused (fst (Player.step c p)) = true ->
  Player.playing (fst (Player.step c p)) = true.
Proof.
  destruct p as [path pl pa]; simpl.
  destruct c as [ready loads song|ready|ready|ready|ready]; simpl;
    unfold Player.load_song, Player.play_song, Player.pause_song,
      Player.unpause_song, Player.stop_song; simpl;
    destruct ready; simpl; auto.
  - destruct loads; simpl; auto.
  - destruct (truthy_opt path), pl, pa; simpl; auto.
  - destruct pl, pa; simpl; auto.
  - destruct pl, pa; simpl; auto.
Qed.

(** Whatever methods are called on a player, in whatever order and
    whether or not the mixer works, [paused] is never set without
    [playing]. *)
Theorem player_paused_implies_playing (cs : list Player.command) :
  let p := fst (Player.run cs Player.init) in
  Player.paused p = true -> Player.playing p = true.
Proof.
  assert (G : forall p0,
             (Player.paused p0 = true -> Player.playing p0 = true) ->
             Player.paused (fst (Player.run cs p0)) = true ->
             Player.playing (fst (Player.run cs p0)) = true).
  { induction cs as [|c cs IH]; intros p0 Inv; simpl; [exact Inv|].
    pose proof (player_step_keeps_pause_inside_play c p0 Inv) as S.
    destruct (Player.step c p0) as [p1 calls1]; simpl in S.
    specialize (IH p1 S).
    destruct (Player.run cs p1) as [p2 calls2]; exact IH. }
  apply G; discriminate.
Qed.

(** While a song is playing (and not paused), loading another song and
    calling [play_song], which is what a double click on a track does,
    loads the file but makes no [play] call: [playing] is still set from
    the song before. *)
Theorem player_second_song_is_not_started (p : Player.player)
    (song_path : pystr) :
  Player.playing p = true -> Player.paused p = false ->
  Player.run [Player.Load true true song_path; Player.Play true] p
  = ({| Player.current_song_path := Some song_path;
        Player.playing := true; Player.paused := false |},
     [Player.MusicLoad song_path]).
Proof.
  intros Hp Hq; simpl.
  unfold Player.play_song; simpl.
  destruct song_path as [|c r]; simpl; rewrite Hp, Hq; reflexivity.
Qed.

Lemma player_second_song_is_not_started_witness :
  snd (Player.run [Player.Load true true (py "/m/a.mp3"); Player.Play true;
                   Player.Load true true (py "/m/b.mp3"); Player.Play true]
         Player.init)
  = [Player.MusicLoad (py "/m/a.mp3"); Player.MusicPlay;
     Player.MusicLoad (py "/m/b.mp3")].
Proof.
  change (Player.run [Player.Load true true (py "/m/a.mp3"); Player.Play true;
                      Player.Load true true (py "/m/b.mp3"); Player.Play true]
            Player.init)
    with (let '(p2, calls2) :=
            Player.run [Player.Load true true (py "/m/b.mp3"); Player.Play true]
              {| Player.current_song_path := Some (py "/m/a.mp3");
                 Player.playing := true; Player.paused := false |} in
          (p2, [Player.MusicLoad (py "/m/a.mp3"); Player.MusicPlay] ++ calls2)).
  rewrite (@player_second_song_is_not_started
             {| Player.current_song_path := Some (py "/m/a.mp3");
                Player.playing := true; Player.paused := false |}
             (py "/m/b.mp3") eq_refl eq_refl).
  reflexivity.
Defined.

(** As long as the mixer is not initialised, no method changes the player
    or reaches the mixer. *)
Theorem player_without_mixer_is_inert (cs : list Player.command)
    (p : Player.player) :
  forallb (fun c => negb (Player.ready_of c)) cs = true ->
  Player.run cs p = (p, []).
Proof.
  induction cs as [|c cs IH]; simpl; [reflexivity|].
  intros H; apply andb_true_iff in H as [Hc Hr].
  destruct c as [ready loads path|ready|ready|ready|ready]; simpl in *;
    destruct ready; try discriminate Hc; simpl; rewrite (IH Hr); reflexivity.
Qed.

Lemma player_without_mixer_is_inert_witness :
  Player.run [Player.Load false true (py "/m/a.mp3"); Player.Play false;
              Player.Stop false] Player.init
  = (Player.init, []).
Proof.
  exact (@player_without_mixer_is_inert
           [Player.Load false true (py "/m/a.mp3"); Player.Play false;
            Player.Stop false] Player.init eq_refl).
Defined.

Lemma player_paused_implies_playing_witness :
  Player.playing
    (fst (Player.run [Player.Load true true (py "/m/a.mp3"); Player.Play true;
                      Player.Pause true; Player.Load true false (py "/m/b")]
            Player.init)) = true.
Proof.
  exact (@player_paused_implies_playing
           [Player.Load true true (py "/m/a.mp3"); Player.Play true;
            Player.Pause true; Player.Load true false (py "/m/b")]
           eq_refl).
Defined.

(** ** Durations *)

(** For every finite duration, negative ones included, [format_duration]
    prints the minutes, a colon, and exactly two digits for the seconds;
    the seconds shown are below 60, and minutes and seconds together give
    back the whole seconds of the duration. *)
Theorem format_duration_shape (x : QArith_base.Q) :
  let whole := Z.quot (QArith_base.Qnum x) (Z.pos (QArith_base.Qden x)) in
  exists (minutes : Z) (d1 d2 : N),
    format_duration (Some x) = str_of_int minutes ++ [ch ":"; d1; d2] /\
    (48 <= d1 <= 57)%N /\ (48 <= d2 <= 57)%N /\
    (0 <= 10 * (Z.of_N d1 - 48) + (Z.of_N d2 - 48) < 60)%Z /\
    whole = (60 * minutes + (10 * (Z.of_N d1 - 48) + (Z.of_N d2 - 48)))%Z.
Proof.
  intros whole.
  assert (R : (0 <= whole mod 60 < 60)%Z) by (apply Z.mod_pos_bound; lia).
  assert (C : two_digits_of (whole mod 60) = true).
  { pose proof two_digits_below_100 as F.
    rewrite forallb_forall in F; apply F.
    apply in_map_iff; exists (Z.to_nat (whole mod 60)); split; [lia|].
    apply in_seq; lia. }
  unfold two_digits_of in C.
  unfold format_duration; fold whole.
  destruct (zfill 2 (str_of_int (whole mod 60))) as [|d1 [|d2 [|? ?]]];
    try discriminate C.
  exists (whole / 60)%Z, d1, d2.
  rewrite !andb_true_iff in C.
  destruct C as [[[[A B] C] D] E].
  apply N.leb_le in A, B, C, D; apply Z.eqb_eq in E.
  split; [reflexivity|].
  split; [split; assumption|].
  split; [split; assumption|].
  split; [rewrite <- E; exact R|].
  rewrite <- E; apply Z.div_mod; lia.
Qed.

(** ** The library tables *)

Lemma fold_max_init (ids : list Z) (seq : Z) :
  (seq <= fold_left Z.max ids seq)%Z.
Proof.
  revert seq; induction ids as [|i ids IH]; intros seq; simpl; [lia|].
  specialize (IH (Z.max seq i)); lia.
Qed.

Lemma fold_max_ge (ids : list Z) (seq x : Z) :
  x = seq \/ In x ids -> (x <= fold_left Z.max ids seq)%Z.
Proof.
  revert seq; induction ids as [|i ids IH]; intros seq; simpl.
  - intros [->|[]]; lia.
  - intros [->|[->|H]].
    + pose proof (fold_max_init ids (Z.max seq i)); lia.
    + pose proof (fold_max_init ids (Z.max seq x)); lia.
    + apply IH; right; exact H.
Qed.

Lemma next_id_fresh (seq : Z) (ids : list Z) :
  ~ In (Library.next_id seq ids) ids.
Proof.
  unfold Library.next_id; intros H.
  pose proof (@fold_max_ge ids seq _ (or_intror H)); lia.
Qed.

Lemma NoDup_snoc (A : Type) (l : list A) (x : A) :
  NoDup l -> ~ In x l -> NoDup (l ++ [x]).
Proof.
  induction l as [|a l IH]; simpl; intros Hl Hx.
  - constructor; [tauto | constructor].
  - inversion Hl; subst; constructor.
    + rewrite in_app_iff; simpl; intros [H|[H|[]]]; [tauto|].
      apply Hx; left; symmetry; exact H.
    + apply IH; [assumption | tauto].
Qed.

Lemma filter_keeps_keys_distinct (K V : Type) (key : V -> K)
    (keep : V -> bool) :
  forall rows, NoDup (map key rows) -> NoDup (map key (filter keep rows)).
Proof.
  intros rows; induction rows as [|row rows IH]; intros D;
    [constructor|].
  apply NoDup_cons_iff in D as [Fresh D]; simpl.
  destruct (keep row); [|exact (IH D)].
  simpl; apply NoDup_cons; [|exact (IH D)].
  intros Hin; apply Fresh.
  apply in_map_iff in Hin as [y [E Hy]].
  rewrite <- E; apply in_map.
  exact (proj1 (proj1 (filter_In keep y rows) Hy)).
Qed.

Lemma existsb_filepath (meta : Type) (fp : pystr)
    (l : list (Library.track_row meta)) :
  existsb (fun r => pystr_eqb fp (Library.filepath r)) l = false ->
  ~ In fp (map (@Library.filepath meta) l).
Proof.
  induction l as [|r l IH]; simpl; [tauto|].
  intros H; apply orb_false_iff in H as [Hr Hl].
  intros [E|Hin]; [|exact (IH Hl Hin)].
  apply pystr_eqb_neq in Hr; auto.
Qed.

Lemma find_snoc_absent (A : Type) (f : A -> bool) (l : list A) (x : A) :
  existsb f l = false -> f x = true -> find f (l ++ [x]) = Some x.
Proof.
  induction l as [|a l IH]; simpl; intros Hl Hx; [rewrite Hx; reflexivity|].
  apply orb_false_iff in Hl as [Ha Hl]; rewrite Ha; auto.
Qed.

Lemma existsb_find (A : Type) (f : A -> bool) (l : list A) :
  existsb f l = true -> exists x, find f l = Some x /\ In x l /\ f x = true.
Proof.
  induction l as [|a l IH]; simpl; [discriminate|].
  destruct (f a) eqn:Fa; simpl.
  - intros _; exists a; auto.
  - intros H; destruct (IH H) as [x [E [Hin Fx]]]; exists x; auto.
Qed.

Lemma pystr_eqb_refl (a : pystr) : pystr_eqb a a = true.
Proof. apply pystr_eqb_eq; reflexivity. Qed.

(** Where [add_track] returns an id: the values could be bound, the table
    had an id left, and either a row [x] has the filepath already and
    nothing changes, or a row with the next id is appended. *)
Lemma add_track_some (meta : Type) (binds : pystr -> meta -> bool)
    (fp : pystr) (cols : meta) (d d' : Library.db meta) (id : Z) :
  Library.add_track binds fp cols d = (Some id, d') ->
  Library.encodable fp = true /\ Library.tracks_full d = false /\
  ((exists x,
      find (fun r => pystr_eqb fp (Library.filepath r)) (Library.tracks d)
        = Some x /\
      In x (Library.tracks d) /\ Library.filepath x = fp /\
      Library.track_id x = id /\ d' = d)
   \/
   (existsb (fun r => pystr_eqb fp (Library.filepath r)) (Library.tracks d)
      = false /\
    id = Library.next_id (Library.tracks_seq d)
           (map (@Library.track_id meta) (Library.tracks d)) /\
    d' = {| Library.tracks :=
              Library.tracks d ++ [{| Library.track_id := id;
                                      Library.filepath := fp;
                                      Library.columns := cols |}];
            Library.tracks_seq := id;
            Library.playlist_tracks := Library.playlist_tracks d;
            Library.entries_seq := Library.entries_seq d |})).
Proof.
  unfold Library.add_track.
  destruct (Library.encodable fp) eqn:En; simpl; [|discriminate].
  destruct (binds fp cols); simpl; [|discriminate].
  destruct (Library.tracks_full d) eqn:F; [discriminate|].
  destruct (existsb _ (Library.tracks d)) eqn:X; intros H.
  - destruct (existsb_find _ _ X) as [x [E [Hin Fx]]].
    unfold Library.id_of_filepath in H; rewrite E in H; simpl in H.
    inversion H; subst.
    split; [reflexivity|]; split; [reflexivity|]; left; exists x.
    repeat split; try assumption.
    symmetry; apply pystr_eqb_eq; exact Fx.
  - inversion H; subst.
    split; [reflexivity|]; split; [reflexivity|]; right.
    repeat split.
Qed.

(** Where [add_track] returns [None], nothing is written. *)
Lemma add_track_none (meta : Type) (binds : pystr -> meta -> bool)
    (fp : pystr) (cols : meta) (d d' : Library.db meta) :
  Library.add_track binds fp cols d = (None, d') -> d' = d.
Proof.
  unfold Library.add_track.
  destruct (negb _); [intros H; inversion H; reflexivity|].
  destruct (Library.tracks_full d); [intros H; inversion H; reflexivity|].
  destruct (existsb _ (Library.tracks d)); intros H; inversion H; reflexivity.
Qed.

(** Adding again a file that [add_track] has accepted, whatever the tags
    given this time, changes nothing in the tables: the stored tags are not
    updated and no row is added. The call returns the id the file already
    has, unless the values given this time cannot be bound or the table has
    run out of ids, and then it returns [None]. *)
Theorem add_track_again_changes_nothing (meta : Type)
    (binds : pystr -> meta -> bool) (fp : pystr) (c1 c2 : meta)
    (d d1 : Library.db meta) (id : Z) :
  Library.add_track binds fp c1 d = (Some id, d1) ->
  Library.add_track binds fp c2 d1 =
    (if binds fp c2 && negb (Library.tracks_full d1) then Some id else None,
     d1) /\
  Library.get_track_count d1 <= S (Library.get_track_count d).
Proof.
  intros H.
  destruct (add_track_some _ _ _ _ H) as [En [F [[x [Fd [_ [_ [Hid ->]]]]]|
                                                  [X [Hnew ->]]]]].
  - split; [|unfold Library.get_track_count; lia].
    unfold Library.add_track; rewrite En, F; simpl.
    destruct (binds fp c2); simpl; [|reflexivity].
    unfold Library.id_of_filepath; rewrite Fd; simpl.
    destruct (existsb _ (Library.tracks d)) eqn:X; [rewrite Hid; reflexivity|].
    exfalso; revert X Fd; clear.
    induction (Library.tracks d) as [|a l IH]; simpl; [discriminate|].
    destruct (pystr_eqb fp (Library.filepath a)); simpl;
      [discriminate | exact IH].
  - split.
    + unfold Library.add_track; rewrite En; simpl.
      destruct (binds fp c2); simpl; [|reflexivity].
      match goal with
      | |- context [Library.tracks_full ?t] =>
          destruct (Library.tracks_full t); simpl; [reflexivity|]
      end.
      rewrite existsb_app; simpl.
      rewrite pystr_eqb_refl, orb_true_r.
      unfold Library.id_of_filepath; simpl.
      rewrite find_snoc_absent; [reflexivity | exact X | apply pystr_eqb_refl].
    + unfold Library.get_track_count; simpl; rewrite length_app; simpl; lia.
Qed.

Lemma add_track_again_changes_nothing_witness :
  Library.add_track Sample6.binds (py "/m/a.mp3") (py "other title")
    Sample6.one = (Some 1%Z, Sample6.one) /\
  Library.get_track_count Sample6.one <= 1.
Proof.
  destruct (@add_track_again_changes_nothing pystr Sample6.binds
              (py "/m/a.mp3") (py "A") (py "other title")
              (Library.empty pystr) Sample6.one 1%Z
              ltac:(vm_compute; reflexivity)) as [H1 H2].
  split; [rewrite H1; vm_compute; reflexivity | exact H2].
Defined.

(** A file name that cannot be encoded is not added, and a playlist id
    beyond 64 bits adds no entry. *)
Example unbindable_arguments_write_nothing :
  Library.add_track Sample6.binds Sample6.undecodable (py "Cafe") Sample6.lib
    = (None, Sample6.lib) /\
  Library.add_track_to_playlist (2 ^ 63) 1 Sample6.lib = (None, Sample6.lib).
Proof. split; vm_compute; reflexivity. Qed.

Lemma apply_call_keeps_keys_unique (meta : Type)
    (binds : pystr -> meta -> bool) (d : Library.db meta)
    (c : Library.call meta) :
  Library.keys_unique d -> Library.keys_unique (Library.apply_call binds d c).
Proof.
  intros [Hid [Hfp He]].
  destruct c as [fp cols|pid tid|id]; simpl.
  - unfold Library.add_track.
    destruct (negb _); [repeat split; assumption|].
    destruct (Library.tracks_full d); [repeat split; assumption|].
    destruct (existsb _ (Library.tracks d)) eqn:X; simpl;
      [repeat split; assumption|].
    repeat split; simpl; try assumption; rewrite map_app; simpl.
    + apply NoDup_snoc; [exact Hid | apply next_id_fresh].
    + apply NoDup_snoc; [exact Hfp | apply existsb_filepath; exact X].
  - unfold Library.add_track_to_playlist.
    destruct (negb (Library.int64 pid)); [repeat split; assumption|].
    destruct (negb _); [repeat split; assumption|].
    destruct (Library.entries_full d); [repeat split; assumption|].
    repeat split; simpl; try assumption; rewrite map_app; simpl.
    apply NoDup_snoc; [exact He | apply next_id_fresh].
  - unfold Library.remove_track_from_playlist.
    destruct (negb (Library.int64 id)); [repeat split; assumption|].
    repeat split; simpl; try assumption.
    apply filter_keeps_keys_distinct; exact He.
Qed.

(** Whatever tracks are added and whatever playlist entries are added and
    removed, starting from empty tables, no two tracks share an id or a
    filepath and no two playlist entries share an id. *)
Theorem library_keys_stay_unique (meta : Type)
    (binds : pystr -> meta -> bool) (calls : list (Library.call meta)) :
  Library.keys_unique
    (fold_left (Library.apply_call binds) calls (Library.empty meta)).
Proof.
  assert (G : forall d, Library.keys_unique d ->
                        Library.keys_unique
                          (fold_left (Library.apply_call binds) calls d)).
  { induction calls as [|c calls IH]; intros d H; simpl; [exact H|].
    apply IH, apply_call_keeps_keys_unique; exact H. }
  apply G; repeat split; constructor.
Qed.

(** The ids of the tracks stay 64-bit integers. *)
Lemma apply_call_keeps_track_ids_int64 (meta : Type)
    (binds : pystr -> meta -> bool) (d : Library.db meta)
    (c : Library.call meta) :
  Library.track_ids_int64 d = true ->
  Library.track_ids_int64 (Library.apply_call binds d c) = true.
Proof.
  intros H; destruct c as [fp cols|pid tid|id]; simpl.
  - unfold Library.add_track.
    destruct (negb _); [exact H|].
    destruct (Library.tracks_full d) eqn:F; [exact H|].
    destruct (existsb _ (Library.tracks d)); simpl; [exact H|].
    unfold Library.track_ids_int64 in *; simpl.
    apply andb_true_iff in H as [Hs Hl].
    assert (I : Library.int64
                  (Library.next_id (Library.tracks_seq d)
                     (map (@Library.track_id meta) (Library.tracks d)))
                = true).
    { unfold Library.tracks_full in F; apply Z.ltb_ge in F.
      unfold Library.int64 in *.
      apply andb_true_iff in Hs as [Hlo _]; apply Z.leb_le in Hlo.
      apply andb_true_iff; split; apply Z.leb_le; [|exact F].
      unfold Library.next_id.
      pose proof (fold_max_init (map (@Library.track_id meta)
                                   (Library.tracks d))
                    (Library.tracks_seq d)); lia. }
    rewrite I, forallb_app, Hl; simpl; rewrite I; reflexivity.
  - unfold Library.add_track_to_playlist.
    destruct (negb (Library.int64 pid)); [exact H|].
    destruct (negb _); [exact H|].
    destruct (Library.entries_full d); exact H.
  - unfold Library.remove_track_from_playlist.
    destruct (negb (Library.int64 id)); exact H.
Qed.

Lemma find_by_id_unique (meta : Type) (l : list (Library.track_row meta))
    (r : Library.track_row meta) :
  NoDup (map (@Library.track_id meta) l) -> In r l ->
  find (fun x => Z.eqb (Library.track_id x) (Library.track_id r)) l = Some r.
Proof.
  induction l as [|a l IH]; simpl; intros Hn Hin; [destruct Hin|].
  inversion Hn; subst.
  destruct Hin as [->|Hin]; [rewrite Z.eqb_refl; reflexivity|].
  destruct (Z.eqb_spec (Library.track_id a) (Library.track_id r)) as [E|_];
    [|auto].
  exfalso; apply H1; rewrite E; apply in_map; exact Hin.
Qed.

Lemma existsb_by_id_absent (meta : Type) (l : list (Library.track_row meta))
    (id : Z) :
  ~ In id (map (@Library.track_id meta) l) ->
  existsb (fun x => Z.eqb (Library.track_id x) id) l = false.
Proof.
  induction l as [|a l IH]; simpl; intros H; [reflexivity|].
  rewrite IH by tauto.
  destruct (Z.eqb_spec (Library.track_id a) id); [exfalso; tauto | reflexivity].
Qed.

(** In tables whose keys are unique and whose ids are 64-bit integers, as
    the schema has them, an id that [add_track] returns for a file names a
    row of that file: [get_track_by_id] on it returns a row whose filepath
    is the one given. When [add_track] returns [None] it has written
    nothing. *)
Theorem add_track_id_names_the_file (meta : Type)
    (binds : pystr -> meta -> bool) (fp : pystr) (cols : meta)
    (d d' : Library.db meta) (r : option Z) :
  Library.keys_unique d ->
  Library.track_ids_int64 d = true ->
  Library.add_track binds fp cols d = (r, d') ->
  match r with
  | Some id =>
      exists row,
        Library.get_track_by_id id d' = Library.TrackRow row /\
        Library.filepath row = fp
  | None => d' = d
  end.
Proof.
  intros [Hid _] Hint H.
  destruct r as [id|]; [|exact (add_track_none _ _ _ _ H)].
  apply andb_true_iff in Hint as [Hs Hl].
  destruct (add_track_some _ _ _ _ H) as [_ [F [[x [_ [Hin [Hfp [Hx ->]]]]]|
                                                [X [Hnew ->]]]]].
  - exists x; split; [|exact Hfp].
    unfold Library.get_track_by_id; subst id.
    rewrite (proj1 (forallb_forall _ _) Hl x Hin).
    rewrite find_by_id_unique; [reflexivity | exact Hid | exact Hin].
  - exists {| Library.track_id := id; Library.filepath := fp;
               Library.columns := cols |}; split; [|reflexivity].
    unfold Library.get_track_by_id; simpl.
    assert (I : Library.int64 id = true).
    { unfold Library.tracks_full in F; apply Z.ltb_ge in F.
      unfold Library.int64 in *.
      apply andb_true_iff in Hs as [Hlo _]; apply Z.leb_le in Hlo.
      rewrite Hnew; apply andb_true_iff; split; apply Z.leb_le; [|exact F].
      unfold Library.next_id.
      pose proof (fold_max_init (map (@Library.track_id meta)
                                   (Library.tracks d))
                    (Library.tracks_seq d)); lia. }
    rewrite I, find_snoc_absent; [reflexivity | | apply Z.eqb_refl].
    rewrite Hnew; apply existsb_by_id_absent, next_id_fresh.
Qed.

Lemma add_track_id_names_the_file_witness :
  exists row,
    Library.get_track_by_id 1 Sample6.lib = Library.TrackRow row /\
    Library.filepath row = py "/m/a.mp3".
Proof.
  assert (U : Library.keys_unique Sample6.lib).
  { repeat split; simpl;
      repeat (constructor; [simpl; intuition discriminate|]); constructor. }
  exact (@add_track_id_names_the_file pystr Sample6.binds (py "/m/a.mp3")
           (py "other title") Sample6.lib Sample6.lib (Some 1%Z) U
           ltac:(vm_compute; reflexivity) ltac:(vm_compute; reflexivity)).
Defined.

Lemma max_sequence_fold (meta : Type) (pid : Z)
    (l : list Library.playlist_entry) (acc : option Z) :
  let step := fun (acc : option Z) (e : Library.playlist_entry) =>
                if Z.eqb (Library.playlist_id e) pid then
                  match acc with
                  | None => Some (Library.sequence e)
                  | Some m => Some (Z.max m (Library.sequence e))
                  end
                else acc in
  let m := fold_left step l acc in
  (forall a, acc = Some a -> exists v, m = Some v /\ (a <= v)%Z) /\
  (forall e, In e l -> Library.playlist_id e = pid ->
             exists v, m = Some v /\ (Library.sequence e <= v)%Z) /\
  ((forall e, In e l -> Library.playlist_id e <> pid) -> m = acc).
Proof.
  intros step; revert acc; induction l as [|x l IH]; intros acc; simpl.
  - split; [|split].
    + intros a ->; exists a; split; [reflexivity | lia].
    + intros e [].
    + reflexivity.
  - destruct (IH (step acc x)) as [A [B C]]; split; [|split].
    + intros a ->.
      assert (S : exists a', step (Some a) x = Some a' /\ (a <= a')%Z).
      { unfold step; destruct (Z.eqb _ pid);
          eexists; (split; [reflexivity | lia]). }
      destruct S as [a' [S Ha']].
      destruct (A a' S) as [v [E Hv]]; exists v; split; [exact E | lia].
    + intros e [E0|Hin] He; [subst x|exact (B e Hin He)].
      assert (S : exists a', step acc e = Some a'
                             /\ (Library.sequence e <= a')%Z).
      { unfold step; rewrite He, Z.eqb_refl; destruct acc;
          eexists; (split; [reflexivity | lia]). }
      destruct S as [a' [S Ha']].
      destruct (A a' S) as [v [E Hv]]; exists v; split; [exact E | lia].
    + intros H; rewrite C by (intros e Hin; apply H; right; exact Hin).
      unfold step.
      destruct (Z.eqb_spec (Library.playlist_id x) pid) as [E|_]; [|reflexivity].
      exfalso; exact (H x (or_introl eq_refl) E).
Qed.

(** When [add_track_to_playlist] returns an id it has put the track last:
    the entry with that id is appended, its sequence number is above that
    of every entry the playlist has (also after removals have left gaps),
    0 when the playlist has none, and the entries already there are left as
    they are. When it returns [None] it has written nothing. *)
Theorem playlist_entry_goes_last (meta : Type) (pid tid : Z)
    (d d' : Library.db meta) (r : option Z) :
  Library.add_track_to_playlist pid tid d = (r, d') ->
  match r with
  | Some id =>
      exists e,
        Library.playlist_tracks d' = Library.playlist_tracks d ++ [e] /\
        Library.entry_id e = id /\
        Library.playlist_id e = pid /\ Library.entry_track_id e = tid /\
        (forall e', In e' (Library.playlist_tracks d) ->
                    Library.playlist_id e' = pid ->
                    (Library.sequence e' < Library.sequence e)%Z) /\
        ((forall e', In e' (Library.playlist_tracks d) ->
                     Library.playlist_id e' <> pid) ->
         Library.sequence e = 0%Z)
  | None => d' = d
  end.
Proof.
  unfold Library.add_track_to_playlist.
  destruct (negb (Library.int64 pid));
    [intros H; inversion H; reflexivity|].
  destruct (negb _); [intros H; inversion H; reflexivity|].
  destruct (Library.entries_full d); intros H; inversion H; subst;
    [reflexivity|].
  eexists; split; [reflexivity|]; simpl.
  destruct (@max_sequence_fold meta pid (Library.playlist_tracks d) None)
    as [_ [B C]].
  fold (Library.max_sequence pid d) in B, C.
  repeat split.
  - intros e' Hin He.
    destruct (B e' Hin He) as [v [-> Hv]]; lia.
  - intros Hn; rewrite (C Hn); reflexivity.
Qed.

Lemma playlist_entry_goes_last_witness :
  exists e,
    Library.playlist_tracks (snd (Library.add_track_to_playlist 1 2
                                    Sample6.listed))
    = Library.playlist_tracks Sample6.listed ++ [e] /\
    Library.entry_id e = 5%Z /\
    forall e', In e' (Library.playlist_tracks Sample6.listed) ->
               Library.playlist_id e' = 1%Z ->
               (Library.sequence e' < Library.sequence e)%Z.
Proof.
  destruct (@playlist_entry_goes_last pystr 1 2 Sample6.listed
              (snd (Library.add_track_to_playlist 1 2 Sample6.listed))
              (Some 5%Z) ltac:(vm_compute; reflexivity))
    as [e [H1 [H2 [_ [_ [H3 _]]]]]].
  exists e; repeat split; assumption.
Defined.

(** The entry added to the sample playlist gets the sequence number 3,
    above the 0 and the 2 that the removal has left. *)
Example playlist_entry_after_a_gap :
  map (@Library.sequence)
    (Library.playlist_tracks
       (snd (Library.add_track_to_playlist 1 2 Sample6.listed)))
  = [0; 2; 0; 3]%Z.
Proof. vm_compute; reflexivity. Qed.

(** ** The scanner's view of the downloader's folders *)

Lemma startswith_app (a b : pystr) : startswith a (a ++ b) = true.
Proof.
  induction a as [|x a IH]; simpl; [reflexivity|].
  rewrite N.eqb_refl; exact IH.
Qed.

Lemma skipn_length_app (a b : pystr) : skipn (length a) (a ++ b) = b.
Proof. induction a as [|x a IH]; simpl; [reflexivity | exact IH]. Qed.

Lemma remove_all_steps_absent (steps : nat) (old s : pystr) :
  contains old s = false -> Scanner.remove_all_steps steps old s = s.
Proof.
  revert s; induction steps as [|k IH]; intros s H; simpl; [reflexivity|].
  destruct s as [|c s]; simpl in H; apply orb_false_iff in H as [Hs Hc].
  - rewrite Hs; reflexivity.
  - rewrite Hs, (IH s Hc); reflexivity.
Qed.

Lemma remove_all_prefix (old rest : pystr) :
  old <> [] -> contains old rest = false ->
  Scanner.remove_all old (old ++ rest) = rest.
Proof.
  intros Ho Hc; unfold Scanner.remove_all.
  destruct old as [|c old]; [contradiction|].
  simpl truthy; cbv iota.
  cbn [Scanner.remove_all_steps].
  rewrite startswith_app, skipn_length_app.
  apply remove_all_steps_absent; exact Hc.
Qed.

Lemma rstrip_char_last (c z : char) (s : pystr) :
  z <> c -> rstrip_char c (s ++ [z]) = s ++ [z].
Proof.
  intros H; unfold rstrip_char.
  rewrite rev_app_distr; simpl.
  destruct (N.eqb_spec c z) as [E|_]; [exfalso; auto|].
  simpl; rewrite rev_involutive; reflexivity.
Qed.

Lemma split_cons_sep (sep : char) (a b : pystr) :
  ~ In sep a -> split sep (a ++ sep :: b) = a :: split sep b.
Proof.
  induction a as [|x a IH]; simpl; intros H.
  - rewrite N.eqb_refl; reflexivity.
  - destruct (N.eqb_spec x sep) as [->|_]; [exfalso; auto|].
    rewrite IH by tauto; reflexivity.
Qed.

Lemma rfind_from_absent (c : char) (s : pystr) (i found : Z) :
  ~ In c s -> rfind_from c s i found = found.
Proof.
  revert i found; induction s as [|x s IH]; intros i found H; simpl;
    [reflexivity|].
  destruct (N.eqb_spec x c) as [->|_]; [exfalso; apply H; left; reflexivity|].
  apply IH; intros Hin; apply H; right; exact Hin.
Qed.

Lemma rfind_from_last (c : char) (a b : pystr) (i found : Z) :
  ~ In c b ->
  rfind_from c (a ++ c :: b) i found = (i + Z.of_nat (length a))%Z.
Proof.
  intros Hb; revert i found; induction a as [|x a IH]; intros i found.
  - simpl; rewrite N.eqb_refl, rfind_from_absent by exact Hb; lia.
  - simpl app; cbn [rfind_from]; rewrite IH.
    rewrite length_cons; lia.
Qed.

Lemma splitext_root_mp3 (stem : pystr) :
  ~ In (ch "/") stem ->
  (exists c, In c stem /\ c <> ch ".") ->
  splitext_root (stem ++ py ".mp3") = stem.
Proof.
  intros Hs [c [Hin Hc]]; unfold splitext_root.
  assert (Sep : rfind (ch "/") (stem ++ py ".mp3") = (-1)%Z).
  { apply rfind_from_absent.
    rewrite in_app_iff; intros [H|H]; [exact (Hs H)|].
    vm_compute in H; intuition discriminate. }
  assert (Dot : rfind (ch ".") (stem ++ py ".mp3")
                = Z.of_nat (length stem)).
  { change (py ".mp3") with (ch "." :: py "mp3").
    unfold rfind; rewrite rfind_from_last; [lia|].
    vm_compute; intuition discriminate. }
  rewrite Sep, Dot.
  replace (-1 <? Z.of_nat (length stem))%Z with true
    by (symmetry; apply Z.ltb_lt; lia).
  rewrite Nat2Z.id.
  replace (firstn (length stem) (stem ++ py ".mp3")) with stem
    by (rewrite firstn_app, Nat.sub_diag, firstn_all; simpl;
        rewrite app_nil_r; reflexivity).
  simpl skipn.
  replace (existsb (fun x => negb (N.eqb x (ch "."))) stem) with true;
    [reflexivity|].
  symmetry; apply existsb_exists; exists c; split; [exact Hin|].
  destruct (N.eqb_spec c (ch ".")); [contradiction | reflexivity].
Qed.

(** A file at [library/artist/album/stem.mp3], the place the downloader
    puts it, that has no tags is given by the scanner the title [stem], the
    artist [artist] and the album [album], provided the library path does
    not occur again in the rest of the path, the artist folder is not
    empty, no name holds a slash and the stem is not made of dots only. *)
Theorem scanner_reads_back_folders (library artist album stem : pystr) :
  library <> [] ->
  contains library
    (py "/" ++ artist ++ py "/" ++ album ++ py "/" ++ stem ++ py ".mp3")
    = false ->
  artist <> [] ->
  ~ In (ch "/") artist -> ~ In (ch "/") album -> ~ In (ch "/") stem ->
  (exists c, In c stem /\ c <> ch ".") ->
  Scanner.tags_with_fallbacks library
    (library ++ py "/" ++ artist ++ py "/" ++ album ++ py "/" ++ stem
     ++ py ".mp3") None None None
  = (stem, artist, album).
Proof.
  intros Hl Hc Ha Na Nb Ns Hd.
  assert (P : Scanner.path_parts library
                (library ++ py "/" ++ artist ++ py "/" ++ album ++ py "/"
                 ++ stem ++ py ".mp3")
              = [artist; album; stem ++ py ".mp3"]).
  { unfold Scanner.path_parts.
    rewrite (@remove_all_prefix library _ Hl Hc).
    assert (S : Scanner.strip_char (ch "/")
                  (py "/" ++ artist ++ py "/" ++ album ++ py "/" ++ stem
                   ++ py ".mp3")
                = artist ++ py "/" ++ album ++ py "/" ++ stem ++ py ".mp3").
    { unfold Scanner.strip_char.
      destruct artist as [|a artist']; [contradiction|].
      assert (Ea : N.eqb (ch "/") a = false).
      { destruct (N.eqb_spec (ch "/") a) as [E|]; [|reflexivity].
        exfalso; apply Na; left; symmetry; exact E. }
      change (dropwhile (N.eqb (ch "/"))
                (py "/" ++ (a :: artist') ++ py "/" ++ album ++ py "/"
                 ++ stem ++ py ".mp3"))
        with (if N.eqb (ch "/") a
              then dropwhile (N.eqb (ch "/"))
                     (artist' ++ py "/" ++ album ++ py "/" ++ stem
                      ++ py ".mp3")
              else (a :: artist') ++ py "/" ++ album ++ py "/" ++ stem
                   ++ py ".mp3").
      rewrite Ea.
      change (py ".mp3") with (py ".mp" ++ [ch "3"]).
      rewrite !app_assoc.
      apply rstrip_char_last; discriminate. }
    rewrite S.
    change (py "/" ++ album ++ py "/" ++ stem ++ py ".mp3")
      with (ch "/" :: album ++ ch "/" :: stem ++ py ".mp3").
    rewrite (@split_cons_sep (ch "/") artist _ Na).
    rewrite (@split_cons_sep (ch "/") album _ Nb).
    rewrite split_no_sep; [reflexivity|].
    rewrite in_app_iff; intros [H|H]; [exact (Ns H)|].
    vm_compute in H; intuition discriminate. }
  unfold Scanner.tags_with_fallbacks; rewrite P; simpl.
  rewrite (@splitext_root_mp3 stem Ns Hd); reflexivity.
Qed.

Lemma scanner_reads_back_folders_witness :
  Scanner.tags_with_fallbacks (py "/dl/Music")
    (py "/dl/Music" ++ py "/" ++ py "Band" ++ py "/" ++ py "Album" ++ py "/"
     ++ py "01 - Intro" ++ py ".mp3") None None None
  = (py "01 - Intro", py "Band", py "Album").
Proof.
  apply scanner_reads_back_folders.
  - discriminate.
  - vm_compute; reflexivity.
  - discriminate.
  - vm_compute; intuition discriminate.
  - vm_compute; intuition discriminate.
  - vm_compute; intuition discriminate.
  - exists (ch "0"); split; [left; reflexivity | discriminate].
Defined.


(** A file without tags that sits only one directory below the library,
    at [library/folder/stem.mp3], gets ["Unknown Artist"] and
    ["Unknown Album"]: the folder it is in is not used. *)
Theorem scanner_ignores_single_folder (library folder stem : pystr) :
  library <> [] ->
  contains library (py "/" ++ folder ++ py "/" ++ stem ++ py ".mp3") = false ->
  folder <> [] ->
  ~ In (ch "/") folder -> ~ In (ch "/") stem ->
  (exists c, In c stem /\ c <> ch ".") ->
  Scanner.tags_with_fallbacks library
    (library ++ py "/" ++ folder ++ py "/" ++ stem ++ py ".mp3")
    None None None
  = (stem, py "Unknown Artist", py "Unknown Album").
Proof.
  intros Hl Hc Ha Na Ns Hd.
  assert (P : Scanner.path_parts library
                (library ++ py "/" ++ folder ++ py "/" ++ stem ++ py ".mp3")
              = [folder; stem ++ py ".mp3"]).
  { unfold Scanner.path_parts.
    rewrite (@remove_all_prefix library _ Hl Hc).
    assert (S : Scanner.strip_char (ch "/")
                  (py "/" ++ folder ++ py "/" ++ stem ++ py ".mp3")
                = folder ++ py "/" ++ stem ++ py ".mp3").
    { unfold Scanner.strip_char.
      destruct folder as [|a folder']; [contradiction|].
      assert (Ea : N.eqb (ch "/") a = false).
      { destruct (N.eqb_spec (ch "/") a) as [E|]; [|reflexivity].
        exfalso; apply Na; left; symmetry; exact E. }
      change (dropwhile (N.eqb (ch "/"))
                (py "/" ++ (a :: folder') ++ py "/" ++ stem ++ py ".mp3"))
        with (if N.eqb (ch "/") a
              then dropwhile (N.eqb (ch "/"))
                     (folder' ++ py "/" ++ stem ++ py ".mp3")
              else (a :: folder') ++ py "/" ++ stem ++ py ".mp3").
      rewrite Ea.
      change (py ".mp3") with (py ".mp" ++ [ch "3"]).
      rewrite !app_assoc.
      apply rstrip_char_last; discriminate. }
    rewrite S.
    change (py "/" ++ stem ++ py ".mp3") with (ch "/" :: stem ++ py ".mp3").
    rewrite (@split_cons_sep (ch "/") folder _ Na).
    rewrite split_no_sep; [reflexivity|].
    rewrite in_app_iff; intros [H|H]; [exact (Ns H)|].
    vm_compute in H; intuition discriminate. }
  unfold Scanner.tags_with_fallbacks; rewrite P; simpl.
  rewrite (@splitext_root_mp3 stem Ns Hd); reflexivity.
Qed.

Lemma scanner_ignores_single_folder_witness :
  Scanner.tags_with_fallbacks (py "/dl/Music")
    (py "/dl/Music" ++ py "/" ++ py "Band" ++ py "/" ++ py "01 - Intro"
     ++ py ".mp3") None None None
  = (py "01 - Intro", py "Unknown Artist", py "Unknown Album").
Proof.
  apply scanner_ignores_single_folder.
  - discriminate.
  - vm_compute; reflexivity.
  - discriminate.
  - vm_compute; intuition discriminate.
  - vm_compute; intuition discriminate.
  - exists (ch "0"); split; [left; reflexivity | discriminate].
Defined.
